(** * Danbooru random tag generator: the aggregation core and its callers

    A shallow embedding of [danbooru_tag_gen_no_chara_ui.py]:
    - [fetch_tags], the fetch / aggregate / sample pipeline;
    - [start_generation_thread], the validation in front of it;
    - [run_fetch_logic], the body of the thread that calls it;
    - [update_ui], which shows the result;
    - [save_tags_file] and [save_post_sources], the two exports;
    - [_on_mousewheel], the scrolling of the canvas.

    Python sets are [gset string]; [list(s)] is [elements s].  The order
    in which Python iterates over a set is left open by the language, so
    the properties below only speak of length, membership and absence of
    duplicates of such lists.

    A Python [str] is a [string] whose characters are code points below
    256.  The remote endpoint is a function from the request number to
    the response it gives; the [random] module is a generator handing out
    raw draws. *)

From stdpp Require Import base gmap sets list strings sorting pretty.
From stdpp Require functions.
From Stdlib Require Import ZArith Lia Ascii.

(** ** Python strings *)

(** [str.isspace] on the code points below 256: tab, line feed, vertical
    tab, form feed, carriage return, the four separators 28..31, space,
    next line (133) and no-break space (160). *)
Definition is_py_space (c : ascii) : bool :=
  match c with
  | "009" | "010" | "011" | "012" | "013"
  | "028" | "029" | "030" | "031" | " " | "133" | "160" => true
  | _ => false
  end%char.

(** The token being read is kept with its last character first. *)
Definition flush_token (tok : list ascii) : list string :=
  match tok with
  | [] => []
  | _ => [String.string_of_list_ascii (rev tok)]
  end.

Fixpoint split_from (tok : list ascii) (s : string) : list string :=
  match s with
  | EmptyString => flush_token tok
  | String c rest =>
      if is_py_space c then flush_token tok ++ split_from [] rest
      else split_from (c :: tok) rest
  end.

(** [s.split()]: the maximal runs of characters that are not whitespace. *)
Definition py_split (s : string) : list string := split_from [] s.

Definition whitespace_free (s : string) : bool :=
  forallb (fun c => negb (is_py_space c)) (String.list_ascii_of_string s).

Definition newline : string := String "010"%char EmptyString.

(** [sep.join(l)] *)
Definition py_join (sep : string) (l : list string) : string :=
  String.concat sep l.

(** [sorted(l)] on strings: ascending in the code point order. *)
Definition py_sorted (l : list string) : list string :=
  merge_sort String.le l.

(** [s.strip()] *)
Fixpoint lstrip (s : string) : string :=
  match s with
  | String c rest => if is_py_space c then lstrip rest else s
  | EmptyString => EmptyString
  end.

Definition py_strip (s : string) : string :=
  String.rev (lstrip (String.rev (lstrip s))).

Definition digit_value (c : ascii) : option Z :=
  let n := Z.of_N (N_of_ascii c) in
  if ((48 <=? n) && (n <=? 57))%Z then Some (n - 48)%Z else None.

(** Decimal digits, single underscores allowed between two digits. *)
Fixpoint parse_digits (acc : Z) (after_digit : bool) (s : string) : option Z :=
  match s with
  | EmptyString => if after_digit then Some acc else None
  | String c rest =>
      match digit_value c with
      | Some d => parse_digits (acc * 10 + d)%Z true rest
      | None =>
          if (Ascii.eqb c "_"%char && after_digit)%bool
          then parse_digits acc false rest
          else None
      end
  end.

(** The whitespace that [int] skips around the number: the six ASCII
    ones, and of the code points from 127 on those that count as space,
    next line (133) and no-break space (160).  The separators 28..31 are
    whitespace for [strip] and [split] but not here. *)
Definition is_int_space (c : ascii) : bool :=
  match c with
  | "009" | "010" | "011" | "012" | "013" | " " | "133" | "160" => true
  | _ => false
  end%char.

Fixpoint int_lstrip (s : string) : string :=
  match s with
  | String c rest => if is_int_space c then int_lstrip rest else s
  | EmptyString => EmptyString
  end.

Definition int_strip (s : string) : string :=
  String.rev (int_lstrip (String.rev (int_lstrip s))).

(** [sys.int_info.default_max_str_digits]: a longer decimal numeral is
    refused with [ValueError]. *)
Definition max_str_digits : nat := 4300.

(** The digits of a numeral; underscores do not count. *)
Fixpoint count_digits (s : string) : nat :=
  match s with
  | EmptyString => 0
  | String c rest =>
      match digit_value c with
      | Some _ => S (count_digits rest)
      | None => count_digits rest
      end
  end.

Definition parse_numeral (s : string) : option Z :=
  if (max_str_digits <? count_digits s)%nat then None
  else parse_digits 0 false s.

(** [int(s)] for a string: [None] stands for [ValueError]. *)
Definition py_int (s : string) : option Z :=
  match int_strip s with
  | String "-"%char rest => Z.opp <$> parse_numeral rest
  | String "+"%char rest => parse_numeral rest
  | body => parse_numeral body
  end.

(** ** The [random] module *)

(** The generator: the raw draws still to come. *)
Definition rng : Type := nat -> nat.

(** [_randbelow(n)], which the library defines for [n > 0]: a number below
    [n], and the generator afterwards.  Every number below [n] is the
    draw of some generator. *)
Definition randbelow (g : rng) (n : nat) : nat * rng :=
  (g 0 mod n, fun i => g (S i)).

(** The generator that gives [j] as its next raw draw and goes on as [g]. *)
Definition draw_first (j : nat) (g : rng) : rng :=
  λ n, match n with 0 => j | S m => g m end.

(** [x[i], x[j] = x[j], x[i]]; an index out of range is an [IndexError]
    in Python, [shuffle] never produces one. *)
Definition swap {A} (x : list A) (i j : nat) : list A :=
  match x !! i, x !! j with
  | Some xi, Some xj => <[j := xi]> (<[i := xj]> x)
  | _, _ => x
  end.

(** [for i in reversed(range(1, len(x)))]: called with [i = len(x) - 1]. *)
Fixpoint shuffle_from {A} (i : nat) (x : list A) (g : rng) : list A * rng :=
  match i with
  | 0 => (x, g)
  | S i' =>
      let '(j, g') := randbelow g (S i) in
      shuffle_from i' (swap x i j) g'
  end.

(** [random.shuffle(x)]; the list is changed in place, so the result is
    the new content of the one list object. *)
Definition shuffle {A} (g : rng) (x : list A) : list A * rng :=
  shuffle_from (length x - 1) x g.

Inductive exception : Type :=
  | ValueError (msg : string).

(** The selection loop of [random.sample] on a copy [pool] of the
    population: [n] is the number of entries not selected yet, they sit at
    [pool[0 : n]]; the entry picked is replaced by the last of them.  (For
    a big population the library remembers the indices already picked
    instead; what it returns is a sample of the same kind.)  The lookups
    cannot fail when [k <= n <= len(pool)], which [sample] checks. *)
Fixpoint sample_from {A} (k : nat) (pool : list A) (n : nat) (g : rng)
  : list A * rng :=
  match k with
  | 0 => ([], g)
  | S k' =>
      let '(j, g') := randbelow g n in
      match pool !! j, pool !! (n - 1) with
      | Some picked, Some last =>
          let '(others, g'') := sample_from k' (<[j := last]> pool) (n - 1) g' in
          (picked :: others, g'')
      | _, _ => ([], g')
      end
  end.

(** [random.sample(population, k)] *)
Definition sample {A} (g : rng) (population : list A) (k : Z)
  : exception + list A * rng :=
  let n := length population in
  if ((0 <=? k) && (k <=? Z.of_nat n))%Z
  then inr (sample_from (Z.to_nat k) population n g)
  else inl (ValueError "Sample larger than population or is negative").

(** [random.randint(a, b)] *)
Definition randint (g : rng) (a b : Z) : Z * rng :=
  let '(r, g') := randbelow g (Z.to_nat (b - a + 1)) in
  ((a + Z.of_nat r)%Z, g').

(** ** The remote endpoint *)

(** A post object of the JSON answer; [None] is an absent key. *)
Record post : Type := Post {
  post_id : option Z;
  tag_string_general : option string;
  tag_string_copyright : option string;
  tag_string_character : option string;
  tag_string_meta : option string;
  tag_string_artist : option string
}.

(** What one [requests.get] ... [response.json()] gives: the decoded list
    of posts, or a [RequestException] with its text. *)
Inductive response : Type :=
  | Posts (posts : list post)
  | RequestException (detail : string).

(** The answer to the request number 0, 1, 2, ... *)
Definition network : Type := nat -> response.

(** ** [fetch_tags] *)

Definition max_requests : nat := 10.

Definition needed_candidates (count : Z) : Z := (count * 3 + 20)%Z.

(** The local variables of the loop. *)
Record collected : Type := Collected {
  collected_tags : gset string;
  collected_artist_tags : gset string;
  source_post_urls : gset string;
  requests_made : nat
}.

Definition start : collected := Collected ∅ ∅ ∅ 0.

(** [post.get(key, '').split()] *)
Definition field_tags (field : option string) : list string :=
  py_split (default "" field).

Definition post_url (n : Z) : string :=
  "https://danbooru.donmai.us/posts/" +:+ pretty n.

(** The body of [for post in posts]. *)
Definition add_post (st : collected) (p : post) : collected :=
  let urls :=
    match post_id p with
    | Some n => source_post_urls st ∪ {[ post_url n ]}
    | None => source_post_urls st
    end in
  let tags :=
    collected_tags st
      ∪ list_to_set (field_tags (tag_string_general p))
      ∪ list_to_set (field_tags (tag_string_copyright p))
      ∪ list_to_set (field_tags (tag_string_character p))
      ∪ list_to_set (field_tags (tag_string_meta p)) in
  let artists :=
    collected_artist_tags st ∪ list_to_set (field_tags (tag_string_artist p)) in
  Collected tags artists urls (requests_made st).

(** The test of the [while]. *)
Definition keep_fetching (count : Z) (st : collected) : bool :=
  (Z.of_nat (size (collected_tags st) + size (collected_artist_tags st))
     <? needed_candidates count)%Z
  && (requests_made st <? max_requests)%nat.

Definition count_request (st : collected) : collected :=
  Collected (collected_tags st) (collected_artist_tags st)
            (source_post_urls st) (S (requests_made st)).

(** How the loop is left: by its test, or by the [return] of the
    [except] clause (with the number of requests made by then). *)
Inductive loop_exit : Type :=
  | Finished (st : collected)
  | Failed (detail : string) (requests : nat).

(** The [while] loop; [None] when [fuel] iterations were not enough. *)
Fixpoint fetch_loop (fuel : nat) (net : network) (count : Z) (st : collected)
  : option loop_exit :=
  match fuel with
  | 0 => None
  | S fuel' =>
      if keep_fetching count st then
        let st' := count_request st in
        match net (requests_made st) with
        | RequestException e => Some (Failed e (requests_made st'))
        | Posts [] => fetch_loop fuel' net count st'
        | Posts posts => fetch_loop fuel' net count (foldl add_post st' posts)
        end
      else Some (Finished st)
  end.

Definition run_loop (net : network) (count : Z) : option loop_exit :=
  fetch_loop (S max_requests) net count start.

Definition requests_of (e : loop_exit) : nat :=
  match e with
  | Finished st => requests_made st
  | Failed _ n => n
  end.

(** The returned tuple
    [(list_of_tags, list_of_post_urls, full_tag_pool, status_message)]. *)
Record fetch_result : Type := FetchResult {
  list_of_tags : list string;
  list_of_post_urls : list string;
  full_tag_pool : list string;
  status_message : string
}.

Inductive outcome : Type :=
  | Returned (r : fetch_result)
  | Raised (e : exception).

Definition artist_entry (tag : string) : string := "artist: " +:+ tag.

Definition final_pool (st : collected) : list string :=
  elements (collected_tags st)
    ++ (artist_entry <$> elements (collected_artist_tags st)).

Definition error_status (detail : string) : string :=
  "Error: Failed to fetch posts from Danbooru. " +:+ detail.

Definition warning_status (found : nat) : string :=
  "Warning: Found only " +:+ pretty found +:+ " unique tags. Returning all.".

Definition success_status (generated : nat) : string :=
  "Success! Generated " +:+ pretty generated +:+ " tags from random posts.".

(** What follows the loop.  In the first branch [final_pool] is shuffled
    in place and the one list object is returned twice, as the sample and
    as the full pool. *)
Definition finish (g : rng) (count : Z) (st : collected) : outcome :=
  let pool := final_pool st in
  if (Z.of_nat (length pool) <? count)%Z then
    let shuffled := fst (shuffle g pool) in
    Returned (FetchResult shuffled (elements (source_post_urls st)) shuffled
                          (warning_status (length shuffled)))
  else
    match sample g pool count with
    | inl e => Raised e
    | inr (selected_tags, _) =>
        Returned (FetchResult selected_tags (elements (source_post_urls st)) pool
                              (success_status (length selected_tags)))
    end.

Definition fetch_tags (net : network) (g : rng) (count : Z) : option outcome :=
  match run_loop net count with
  | None => None
  | Some (Failed e _) => Some (Returned (FetchResult [] [] [] (error_status e)))
  | Some (Finished st) => Some (finish g count st)
  end.

Definition indicates_success (status : string) : bool :=
  String.prefix "Success!" status.

(** The two sets only hold tokens cut out by [split]. *)
Definition tokens_only (st : collected) : Prop :=
  (∀ s, s ∈ collected_tags st → whitespace_free s = true)
  ∧ (∀ s, s ∈ collected_artist_tags st → whitespace_free s = true).

(** ** The application around [fetch_tags] *)

Module TagGeneratorApp.

Inductive widget : Type :=
  | generate_button
  | save_tags_button
  | save_sources_button.

Inductive text_box : Type :=
  | results_text
  | tag_pool_text.

(** What a callback does to the world outside the object, in order. *)
Inductive effect : Type :=
  | Config (w : widget) (state : string)
  | DeleteAll (box : text_box)
  | SetTagPoolLabel (text : string)
  | UpdateStatus (message : string)
  | ShowError (title message : string)
  | ShowWarning (title message : string)
  | StartThread (count : Z)
  | UpdateUi (tags : list string) (message : string)
  | WriteFile (filepath content : string).

(** The fields of the object that the callbacks read and write, and
    the content of the input widgets. *)
Record instance : Type := MkApp {
  post_source_urls : list string;
  full_tag_pool : list string;
  mode : string;
  fixed_entry : string;
  min_entry : string;
  max_entry : string
}.

Definition with_results (self : instance) (urls pool : list string) : instance :=
  MkApp urls pool (mode self) (fixed_entry self) (min_entry self)
        (max_entry self).

Definition give_back_control : list effect :=
  [Config generate_button "normal"; UpdateStatus "Ready."].

Definition on_value_error : list effect :=
  ShowError "Input Error"
            "Please enter valid whole numbers for the tag amounts."
    :: give_back_control.

(** The [try] block of [start_generation_thread]. *)
Definition validate_and_start (self : instance) (g : rng) : list effect :=
  if String.eqb (mode self) "fixed" then
    match py_int (fixed_entry self) with
    | Some count => [StartThread count]
    | None => on_value_error
    end
  else
    match py_int (min_entry self) with
    | None => on_value_error
    | Some min_val =>
        match py_int (max_entry self) with
        | None => on_value_error
        | Some max_val =>
            if (min_val >? max_val)%Z then
              ShowError "Input Error"
                "Minimum value cannot be greater than the maximum value."
                :: give_back_control
            else
              let '(count, _) := randint g min_val max_val in
              [StartThread count]
        end
    end.

Definition start_generation_thread (self : instance) (g : rng) : instance * list effect :=
  (with_results self [] [],
   [Config generate_button "disabled";
    Config save_tags_button "disabled";
    Config save_sources_button "disabled";
    DeleteAll results_text;
    DeleteAll tag_pool_text;
    SetTagPoolLabel "Full Tag Pool";
    UpdateStatus "Validating input..."]
     ++ validate_and_start self g).

(** The body of the thread started by [StartThread count]: the one place
    that calls [fetch_tags].  An exception ends the thread there. *)
Definition run_fetch_logic (self : instance) (net : network) (g : rng) (count : Z)
  : option (instance * list effect) :=
  match fetch_tags net g count with
  | None => None
  | Some (Raised _) =>
      Some (self, [UpdateStatus "Fetching tags from random posts..."])
  | Some (Returned (FetchResult tags post_urls full_pool message)) =>
      Some (with_results self post_urls full_pool,
            [UpdateStatus "Fetching tags from random posts...";
             UpdateUi tags message])
  end.

(** [save_post_sources]: [filepath] is the answer of the save dialog
    (empty when it was cancelled), [io_error] the text of the [IOError]
    of [open] or [write] if one is raised. *)
Definition save_post_sources (self : instance) (filepath : string)
    (io_error : option string) : list effect :=
  match post_source_urls self with
  | [] => [ShowWarning "Warning" "There are no post sources to save."]
  | _ =>
      if String.eqb filepath "" then []
      else
        match io_error with
        | None =>
            [WriteFile filepath (py_join newline (py_sorted (post_source_urls self)));
             UpdateStatus ("Post sources saved to " +:+ filepath)]
        | Some reason =>
            [ShowError "Save Error" ("Could not save file. Reason: " +:+ reason)]
        end
  end.

End TagGeneratorApp.

(** ** The widgets the callbacks draw on *)

Module TagGeneratorWidgets.

Import TagGeneratorApp.

#[global] Instance widget_eq_dec : EqDecision widget.
Proof. solve_decision. Defined.

#[global] Instance text_box_eq_dec : EqDecision text_box.
Proof. solve_decision. Defined.

(** [s.replace(old, new)] for two strings of one character each. *)
Fixpoint replace_char (old new : ascii) (s : string) : string :=
  match s with
  | EmptyString => EmptyString
  | String c rest =>
      String (if Ascii.eqb c old then new else c) (replace_char old new rest)
  end.

(** [tag.replace('_', ' ')] *)
Definition spaced (tag : string) : string := replace_char "_" " " tag.

(** The variables and widgets that [update_ui] and [save_tags_file] touch.
    [text_of] is what a text box holds, without the line end that Tk
    keeps after it. *)
Record view : Type := View {
  status_var : string;
  tag_pool_label_var : string;
  text_of : text_box → string;
  text_state : text_box → string;
  button_state : widget → string
}.

Definition set_status (v : view) (message : string) : view :=
  View message (tag_pool_label_var v) (text_of v) (text_state v) (button_state v).

Definition set_label (v : view) (text : string) : view :=
  View (status_var v) text (text_of v) (text_state v) (button_state v).

(** [box.config(state=...)] *)
Definition config_text (v : view) (box : text_box) (state : string) : view :=
  View (status_var v) (tag_pool_label_var v) (text_of v)
       (<[box := state]> (text_state v)) (button_state v).

(** [button.config(state=...)] *)
Definition config_button (v : view) (w : widget) (state : string) : view :=
  View (status_var v) (tag_pool_label_var v) (text_of v) (text_state v)
       (<[w := state]> (button_state v)).

Definition write_text (v : view) (box : text_box) (content : string) : view :=
  View (status_var v) (tag_pool_label_var v) (<[box := content]> (text_of v))
       (text_state v) (button_state v).

(** [box.delete('1.0', tk.END)]: a text box that is not in the state
    [normal] ignores it. *)
Definition delete_all (v : view) (box : text_box) : view :=
  if String.eqb (text_state v box) "normal" then write_text v box "" else v.

(** [box.insert(tk.END, text)], ignored in the same way. *)
Definition insert_end (v : view) (box : text_box) (text : string) : view :=
  if String.eqb (text_state v box) "normal"
  then write_text v box (text_of v box +:+ text) else v.

(** [box.get('1.0', tk.END)]: the content and the line end after it. *)
Definition get_all (v : view) (box : text_box) : string :=
  text_of v box +:+ newline.

(** The block "Update Generated Tags Box" of [update_ui]. *)
Definition show_tags (v : view) (tags : list string) : view :=
  let v := config_text v results_text "normal" in
  let v := delete_all v results_text in
  let v :=
    match tags with
    | [] => v
    | _ =>
        let formatted_tags := spaced <$> tags in
        let v := insert_end v results_text (py_join ", " formatted_tags) in
        config_button v save_tags_button "normal"
    end in
  config_text v results_text "disabled".

(** The block "Update Full Tag Pool Box" of [update_ui]. *)
Definition show_pool (v : view) (pool : list string) : view :=
  let v := config_text v tag_pool_text "normal" in
  let v := delete_all v tag_pool_text in
  let v :=
    match pool with
    | [] => set_label v "Full Tag Pool"
    | _ =>
        let v := set_label v ("Full Tag Pool (" +:+ pretty (length pool)
                                +:+ " tags)") in
        let formatted_pool := py_sorted (spaced <$> pool) in
        insert_end v tag_pool_text (py_join newline formatted_pool)
    end in
  config_text v tag_pool_text "disabled".

(** [update_ui(tags, message)]; [self] gives the two fields it reads. *)
Definition update_ui (self : instance) (v : view) (tags : list string)
    (message : string) : view :=
  let v := set_status v message in
  let v := show_tags v tags in
  let v := show_pool v (full_tag_pool self) in
  let v :=
    match post_source_urls self with
    | [] => v
    | _ => config_button v save_sources_button "normal"
    end in
  config_button v generate_button "normal".

(** [save_tags_file]: [filepath] and [io_error] as for
    [save_post_sources]. *)
Definition save_tags_file (v : view) (filepath : string)
    (io_error : option string) : list effect :=
  let content := py_strip (get_all v results_text) in
  if String.eqb content "" then
    [ShowWarning "Warning" "There are no tags to save."]
  else if String.eqb filepath "" then []
  else
    match io_error with
    | None =>
        [WriteFile filepath content;
         UpdateStatus ("Tags saved to " +:+ filepath)]
    | Some reason =>
        [ShowError "Save Error" ("Could not save file. Reason: " +:+ reason)]
    end.

(** The two attributes of a Tk event that [_on_mousewheel] reads; [num]
    is a number only for a button event. *)
Record event : Type := Event {
  num : option Z;
  delta : Z
}.

(** [_on_mousewheel]: the number of units given to [yview_scroll]. *)
Definition _on_mousewheel (ev : event) : Z :=
  if (bool_decide (num ev = Some 5%Z) || (delta ev =? -120)%Z)%bool then 1%Z
  else if (bool_decide (num ev = Some 4%Z) || (delta ev =? 120)%Z)%bool
  then (-1)%Z
  else (-1 * (delta ev `div` 120))%Z.

End TagGeneratorWidgets.

(** ** What the loop has seen *)

(** The tokens of the four fields that go to [collected_tags]. *)
Definition general_tokens (p : post) : list string :=
  field_tags (tag_string_general p)
    ++ field_tags (tag_string_copyright p)
    ++ field_tags (tag_string_character p)
    ++ field_tags (tag_string_meta p).

Definition artist_tokens (p : post) : list string :=
  field_tags (tag_string_artist p).

(** [p] is a post of the answer to one of the first [k] requests. *)
Definition answered (net : network) (k : nat) (p : post) : Prop :=
  ∃ i posts, i < k ∧ net i = Posts posts ∧ p ∈ posts.

(** The three sets hold what the posts answered so far give, no more and
    no less. *)
Definition records_answers (net : network) (st : collected) : Prop :=
  (∀ s, s ∈ collected_tags st ↔
        ∃ p, answered net (requests_made st) p ∧ s ∈ general_tokens p)
  ∧ (∀ t, t ∈ collected_artist_tags st ↔
          ∃ p, answered net (requests_made st) p ∧ t ∈ artist_tokens p)
  ∧ (∀ u, u ∈ source_post_urls st ↔
          ∃ p n, answered net (requests_made st) p
                 ∧ post_id p = Some n ∧ u = post_url n).

(** ** Sample inputs *)

Definition sample_post : post :=
  Post (Some 42%Z) (Some "1girl  solo long_hair") (Some "original") None
       (Some "highres") (Some "foo bar").

(** Every request is answered with the same single post. *)
Definition steady_net : network := λ _, Posts [sample_post].

(** Every request is answered with an empty list of posts. *)
Definition empty_net : network := λ _, Posts [].

(** The third request fails. *)
Definition flaky_net : network := λ i,
  match i with
  | 0 => Posts [sample_post]
  | 1 => Posts []
  | _ => RequestException "timed out"
  end.

Definition sample_rng : rng := λ i, 7 * i + 3.

(** The variables of the loop after ten answers of [steady_net]. *)
Definition steady_collected : collected :=
  Collected (list_to_set ["1girl"; "solo"; "long_hair"; "original"; "highres"])
            (list_to_set ["foo"; "bar"])
            {[ "https://danbooru.donmai.us/posts/42" ]}
            10.

(** What [fetch_tags] returns for [steady_net], [sample_rng] and a count
    of 2. *)
Definition steady_result : fetch_result :=
  FetchResult ["long_hair"; "highres"]
              ["https://danbooru.donmai.us/posts/42"]
              ["original"; "solo"; "1girl"; "long_hair"; "highres";
               "artist: foo"; "artist: bar"]
              "Success! Generated 2 tags from random posts.".

(** The random range mode with the bounds the wrong way round. *)
Definition inverted_form : TagGeneratorApp.instance :=
  TagGeneratorApp.MkApp [] [] "random" "" "10" "5".

(** An object holding two source URLs after a fetch. *)
Definition fetched_form : TagGeneratorApp.instance :=
  TagGeneratorApp.MkApp
    ["https://danbooru.donmai.us/posts/9";
     "https://danbooru.donmai.us/posts/10"]
    ["solo"] "fixed" "1" "" "".

Definition other_rng : rng := λ i, i.

(** The fixed mode with a negative number typed in. *)
Definition negative_form : TagGeneratorApp.instance :=
  TagGeneratorApp.MkApp [] [] "fixed" "-3" "" "".

(** The random range mode with the bounds in order. *)
Definition range_form : TagGeneratorApp.instance :=
  TagGeneratorApp.MkApp [] [] "random" "" "2" "5".

(** The random range mode with a lower bound that is no number. *)
Definition garbled_form : TagGeneratorApp.instance :=
  TagGeneratorApp.MkApp [] [] "random" "" "two" "5".

(** The fixed mode with a 7 and the unit separator (code point 31) after
    it, which [strip] and [split] take for whitespace and [int] does
    not. *)
Definition separator_form : TagGeneratorApp.instance :=
  TagGeneratorApp.MkApp [] [] "fixed"
    (String "7"%char (String "031"%char EmptyString)) "" "".

(** The fixed mode with a numeral of 4301 digits. *)
Definition long_form : TagGeneratorApp.instance :=
  TagGeneratorApp.MkApp [] [] "fixed"
    (String.string_of_list_ascii (replicate 4301 "1"%char)) "" "".

(** The widgets as [start_generation_thread] leaves them. *)
Definition waiting_view : TagGeneratorWidgets.view :=
  TagGeneratorWidgets.View "Validating input..." "Full Tag Pool"
    (λ _, "") (λ _, "disabled") (λ _, "disabled").

(** * Properties of the string functions *)

Section strings.

Implicit Types (s t : string) (tok : list ascii).

Lemma whitespace_free_chars s :
  whitespace_free s = true ↔
  Forall (λ c, is_py_space c = false) (String.list_ascii_of_string s).
Proof.
  unfold whitespace_free. rewrite forallb_forall, Forall_forall.
  split; intros H c Hc.
  - apply negb_true_iff, H. by apply list_elem_of_In.
  - apply negb_true_iff, H. by apply list_elem_of_In.
Qed.

Lemma flush_token_free tok :
  Forall (λ c, is_py_space c = false) tok →
  Forall (λ t, whitespace_free t = true) (flush_token tok).
Proof.
  intros Htok. destruct tok as [|c tok]; [constructor|].
  unfold flush_token. repeat constructor.
  apply whitespace_free_chars.
  rewrite String.list_ascii_of_string_of_list_ascii.
  by apply Forall_rev.
Qed.

Lemma split_from_free s : ∀ tok,
  Forall (λ c, is_py_space c = false) tok →
  Forall (λ t, whitespace_free t = true) (split_from tok s).
Proof.
  induction s as [|c rest IH]; intros tok Htok; simpl.
  - by apply flush_token_free.
  - destruct (is_py_space c) eqn:Hc.
    + apply Forall_app; split; [by apply flush_token_free|].
      apply IH. constructor.
    + apply IH. by constructor.
Qed.

(** Every token of [s.split()] is free of whitespace. *)
Lemma py_split_free s : Forall (λ t, whitespace_free t = true) (py_split s).
Proof. apply split_from_free. constructor. Qed.

Lemma artist_entry_space t : whitespace_free (artist_entry t) = false.
Proof. reflexivity. Qed.

Lemma artist_entry_not_token s t : whitespace_free s = true → s ≠ artist_entry t.
Proof. intros Hs ->. by rewrite artist_entry_space in Hs. Qed.

Lemma artist_entry_inj : Inj (=) (=) artist_entry.
Proof. unfold artist_entry. apply _. Qed.

Lemma py_sorted_sorted l : Sorted String.le (py_sorted l).
Proof. apply Sorted_merge_sort; apply _. Qed.

Lemma py_sorted_perm l : py_sorted l ≡ₚ l.
Proof. apply merge_sort_Permutation. Qed.

Lemma string_app_cons c s t : String c s +:+ t = String c (s +:+ t).
Proof. reflexivity. Qed.

Lemma string_app_nil_r s : s +:+ "" = s.
Proof. induction s as [|c s IH]; [done|]. by rewrite string_app_cons, IH. Qed.

Lemma string_app_assoc s t u : (s +:+ t) +:+ u = s +:+ (t +:+ u).
Proof. induction s as [|c s IH]; [done|]. by rewrite !string_app_cons, IH. Qed.

Lemma fold_after_prefix sep prefix l : ∀ s,
  foldl (λ text u, text +:+ sep +:+ u) (prefix +:+ s) l
  = prefix +:+ foldl (λ text u, text +:+ sep +:+ u) s l.
Proof.
  induction l as [|u l IH]; intros s; [done|].
  cbn [foldl]. by rewrite string_app_assoc, IH.
Qed.

(** [sep.join] puts the first string down and then each further one
    behind a separator. *)
Lemma join_as_fold sep first rest :
  py_join sep (first :: rest)
  = foldl (λ text u, text +:+ sep +:+ u) first rest.
Proof.
  unfold py_join. revert first.
  induction rest as [|u rest IH]; intros first; [done|].
  change (String.concat sep (first :: u :: rest))
    with (first +:+ sep +:+ String.concat sep (u :: rest)).
  rewrite IH. cbn [foldl].
  by rewrite !fold_after_prefix.
Qed.

End strings.

(** * Properties of the [random] functions *)

Section random.

Context {A : Type}.
Implicit Types (x pool population chosen : list A) (g : rng).

Lemma randbelow_lt g n : 0 < n → (randbelow g n).1 < n.
Proof. intros Hn. simpl. apply Nat.mod_upper_bound. lia. Qed.

(** Overwriting position [j] with [y] trades the old entry for [y]. *)
Lemma insert_trade x j (old y : A) :
  x !! j = Some old → x ++ [y] ≡ₚ old :: <[j := y]> x.
Proof.
  revert j. induction x as [|a x IH]; intros [|j] Hj; simplify_eq/=.
  - by rewrite <- Permutation_cons_append.
  - rewrite (IH _ Hj). apply perm_swap.
Qed.

Lemma swap_perm x i j : swap x i j ≡ₚ x.
Proof.
  unfold swap.
  destruct (x !! i) as [xi|] eqn:Hi; [|done].
  destruct (x !! j) as [xj|] eqn:Hj; [|done].
  destruct (decide (i = j)) as [->|Hne].
  - simplify_eq. rewrite list_insert_insert_eq. by rewrite list_insert_id.
  - apply (Permutation_cons_inv (a := xj)).
    rewrite <- insert_trade.
    2:{ rewrite list_lookup_insert_ne by done. exact Hj. }
    rewrite <- Permutation_cons_append.
    rewrite <- (insert_trade x i xi xj Hi).
    by rewrite <- Permutation_cons_append.
Qed.

Lemma shuffle_from_perm i : ∀ x g, (shuffle_from i x g).1 ≡ₚ x.
Proof.
  induction i as [|i IH]; intros x g; [done|].
  cbn [shuffle_from]. destruct (randbelow g (S (S i))) as [j g'].
  rewrite IH. apply swap_perm.
Qed.

(** [random.shuffle] rearranges, it neither drops nor repeats. *)
Lemma shuffle_perm g x : (shuffle g x).1 ≡ₚ x.
Proof. apply shuffle_from_perm. Qed.

Lemma swap_lookup_first x i j (xi xj : A) :
  x !! i = Some xi → x !! j = Some xj → swap x i j !! i = Some xj.
Proof.
  intros Hi Hj. unfold swap. rewrite Hi, Hj.
  destruct (decide (i = j)) as [->|Hne].
  - simplify_eq. apply list_lookup_insert_eq.
    rewrite length_insert. by eapply lookup_lt_Some.
  - rewrite list_lookup_insert_ne by done.
    apply list_lookup_insert_eq. by eapply lookup_lt_Some.
Qed.

Lemma swap_drop x i j n : i < n → j < n → drop n (swap x i j) = drop n x.
Proof.
  intros Hi Hj. unfold swap.
  destruct (x !! i); [|done]. destruct (x !! j); [|done].
  by rewrite !drop_insert_lt.
Qed.

(** Every arrangement of the entries up to [i] that leaves the rest in
    place is what the loop of [shuffle] gives for some generator. *)
Lemma shuffle_from_reaches i : ∀ x target,
  i < length x → target ≡ₚ x → drop (S i) target = drop (S i) x →
  ∃ g, (shuffle_from i x g).1 = target.
Proof.
  induction i as [|i IH]; intros x target Hi Hperm Hrest.
  - exists (λ _, 0). simpl.
    destruct x as [|a x]; [simpl in Hi; lia|].
    destruct target as [|b target];
      [by apply Permutation_nil_cons in Hperm|].
    simpl in Hrest. rewrite !drop_0 in Hrest. subst target.
    apply (Permutation_app_inv_r x [b] [a]), Permutation_length_1 in Hperm.
    by subst.
  - assert (length target = length x) as Hlen by by rewrite Hperm.
    destruct (lookup_lt_is_Some_2 target (S i) ltac:(lia)) as [y Hy].
    destruct (lookup_lt_is_Some_2 x (S i) ltac:(lia)) as [xi Hxi].
    assert (take (S (S i)) target ≡ₚ take (S (S i)) x) as Hfront.
    { apply (Permutation_app_inv_r (drop (S (S i)) x)).
      rewrite <- Hrest at 1. by rewrite !take_drop. }
    assert (y ∈ take (S (S i)) x) as Hin.
    { rewrite <- Hfront. apply list_elem_of_lookup. exists (S i).
      rewrite lookup_take_lt by lia. done. }
    apply list_elem_of_lookup in Hin as [j Hj].
    assert (j < S (S i)) as Hjlt.
    { apply lookup_lt_Some in Hj. rewrite length_take in Hj. lia. }
    rewrite lookup_take_lt in Hj by done.
    destruct (IH (swap x (S i) j) target) as [g Hg].
    + pose proof (swap_perm x (S i) j) as Hswap.
      rewrite (Permutation_length Hswap). lia.
    + by rewrite swap_perm.
    + rewrite (drop_S _ _ _ Hy).
      rewrite (drop_S _ _ _ (swap_lookup_first x (S i) j xi y Hxi Hj)).
      rewrite swap_drop by lia. by rewrite Hrest.
    + exists (draw_first j g). cbn [shuffle_from].
      unfold randbelow. cbn [draw_first].
      rewrite Nat.mod_small by done. exact Hg.
Qed.

(** [random.shuffle] can leave the list in every order. *)
Lemma shuffle_reaches x target :
  target ≡ₚ x → ∃ g, (shuffle g x).1 = target.
Proof.
  intros Hperm. unfold shuffle.
  destruct x as [|a x].
  - apply Permutation_nil_r in Hperm as ->. by exists (λ _, 0).
  - apply shuffle_from_reaches; [simpl; lia|done|].
    assert (length target = length (a :: x)) as Hlen by by rewrite Hperm.
    rewrite !drop_ge; [done|simpl; lia|lia].
Qed.

Lemma take_pick pool n j (picked last : A) :
  j < n → pool !! j = Some picked → pool !! (n - 1) = Some last →
  take n pool ≡ₚ picked :: take (n - 1) (<[j := last]> pool).
Proof.
  intros Hj Hpick Hlast. destruct n as [|m]; [lia|].
  replace (S m - 1) with m in * by lia.
  rewrite (take_S_r _ _ _ Hlast).
  destruct (decide (j = m)) as [->|Hne].
  - simplify_eq. rewrite list_insert_id by done.
    by rewrite <- Permutation_cons_append.
  - rewrite take_insert_lt by lia.
    apply insert_trade. rewrite lookup_take_lt by lia. done.
Qed.

(** The selection loop picks [k] entries at [k] different positions
    among the first [n]. *)
Lemma sample_from_spec k : ∀ pool n g,
  k ≤ n → n ≤ length pool →
  ∃ others, take n pool ≡ₚ (sample_from k pool n g).1 ++ others
            ∧ length (sample_from k pool n g).1 = k.
Proof.
  induction k as [|k IH]; intros pool n g Hk Hn.
  - exists (take n pool). done.
  - cbn [sample_from].
    pose proof (randbelow_lt g n ltac:(lia)) as Hj.
    destruct (randbelow g n) as [j g']. simpl in Hj.
    destruct (lookup_lt_is_Some_2 pool j ltac:(lia)) as [picked Hpick].
    destruct (lookup_lt_is_Some_2 pool (n - 1) ltac:(lia)) as [last Hlast].
    rewrite Hpick, Hlast.
    destruct (IH (<[j := last]> pool) (n - 1) g') as (others & Hperm & Hlen);
      [lia | rewrite length_insert; lia |].
    destruct (sample_from k (<[j := last]> pool) (n - 1) g') as [chosen g''].
    simpl in *. exists others. split; [|by rewrite Hlen].
    rewrite (take_pick pool n j picked last) by done.
    by rewrite Hperm.
Qed.

Lemma sample_spec g population (k : Z) chosen g' :
  sample g population k = inr (chosen, g') →
  Z.of_nat (length chosen) = k
  ∧ ∃ others, population ≡ₚ chosen ++ others.
Proof.
  unfold sample. case_match eqn:Hk; [|done].
  apply andb_true_iff in Hk as [H0 Hn].
  apply Z.leb_le in H0, Hn. intros [= Heq].
  destruct (sample_from_spec (Z.to_nat k) population (length population) g)
    as (others & Hperm & Hlen); [lia | lia |].
  rewrite Heq in Hperm, Hlen. simpl in *.
  split; [lia|]. exists others.
  by rewrite <- Hperm, firstn_all.
Qed.

Lemma sample_negative g population (k : Z) :
  (k < 0)%Z →
  sample g population k
  = inl (ValueError "Sample larger than population or is negative").
Proof.
  intros Hk. unfold sample.
  destruct (Z.leb_spec 0 k); [lia|]. done.
Qed.

Lemma sample_in_range g population (k : Z) :
  (0 ≤ k ≤ Z.of_nat (length population))%Z →
  ∃ chosen g', sample g population k = inr (chosen, g').
Proof.
  intros [H0 Hn]. unfold sample.
  destruct (Z.leb_spec 0 k); [|lia].
  destruct (Z.leb_spec k (Z.of_nat (length population))); [|lia].
  simpl. destruct (sample_from _ _ _ _) as [c g']. eauto.
Qed.

End random.

(** * Properties of the aggregation loop *)

Section aggregation.

Variables (net : network) (count : Z).
Implicit Types (st : collected) (p : post) (e : loop_exit).

Lemma field_tags_free field s : s ∈ field_tags field → whitespace_free s = true.
Proof.
  intros Hs. pose proof (py_split_free (default "" field)) as Hall.
  rewrite Forall_forall in Hall. by apply Hall.
Qed.

Lemma add_post_tokens_only st p : tokens_only st → tokens_only (add_post st p).
Proof.
  intros [Htags Hartists]. split; simpl; intros s.
  - rewrite !elem_of_union, !elem_of_list_to_set.
    intros [[[[?|?]|?]|?]|?]; eauto using field_tags_free.
  - rewrite elem_of_union, elem_of_list_to_set.
    intros [?|?]; eauto using field_tags_free.
Qed.

Lemma add_posts_tokens_only posts : ∀ st,
  tokens_only st → tokens_only (foldl add_post st posts).
Proof.
  induction posts as [|p posts IH]; intros st Hst; simpl; [done|].
  by apply IH, add_post_tokens_only.
Qed.

Lemma add_posts_requests posts : ∀ st,
  requests_made (foldl add_post st posts) = requests_made st.
Proof.
  induction posts as [|p posts IH]; intros st; simpl; [done|].
  by rewrite IH.
Qed.

Lemma start_tokens_only : tokens_only start.
Proof. split; intros s; simpl; by rewrite elem_of_empty. Qed.

(** One iteration of the loop, by cases on its test and on the answer. *)
Ltac loop_step st :=
  cbn [fetch_loop];
  destruct (keep_fetching count st) eqn:?;
  [destruct (net (requests_made st)) as [[|? ?]|?] eqn:?|].

Lemma fetch_loop_tokens_only fuel : ∀ st st',
  fetch_loop fuel net count st = Some (Finished st') →
  tokens_only st → tokens_only st'.
Proof.
  induction fuel as [|fuel IH]; intros st st'; [done|].
  loop_step st; intros Hrun Hst; simplify_eq; [..|done].
  - by apply (IH _ _ Hrun).
  - apply (IH _ _ Hrun). by apply add_posts_tokens_only.
Qed.

Lemma fetch_loop_exit_test fuel : ∀ st st',
  fetch_loop fuel net count st = Some (Finished st') →
  keep_fetching count st' = false.
Proof.
  induction fuel as [|fuel IH]; intros st st'; [done|].
  loop_step st; intros Hrun; simplify_eq; eauto.
Qed.

(** The budget of requests bounds the iterations: the loop is total. *)
Lemma fetch_loop_total fuel : ∀ st,
  max_requests - requests_made st < fuel →
  ∃ e, fetch_loop fuel net count st = Some e.
Proof.
  induction fuel as [|fuel IH]; intros st Hfuel; [lia|].
  loop_step st; eauto.
  - apply IH. apply andb_true_iff in Heqb as [_ Hlt].
    apply Nat.ltb_lt in Hlt. cbn [count_request requests_made]. lia.
  - apply IH. apply andb_true_iff in Heqb as [_ Hlt].
    apply Nat.ltb_lt in Hlt. rewrite add_posts_requests.
    cbn [count_request requests_made]. lia.
Qed.

Lemma fetch_loop_requests fuel : ∀ st e,
  fetch_loop fuel net count st = Some e →
  requests_made st ≤ max_requests →
  requests_made st ≤ requests_of e ≤ max_requests.
Proof.
  induction fuel as [|fuel IH]; intros st e; [done|].
  loop_step st; intros Hrun Hle; simplify_eq; cbn [requests_of]; [..|lia];
    apply andb_true_iff in Heqb as [_ Hlt]; apply Nat.ltb_lt in Hlt.
  - apply IH in Hrun; cbn [count_request requests_made] in *; lia.
  - apply IH in Hrun; rewrite ?add_posts_requests in *;
      cbn [count_request requests_made] in *; lia.
  - cbn [count_request requests_made]. lia.
Qed.

(** A failing request that was really made ends the loop on the spot. *)
Lemma fetch_loop_failure fuel k detail : ∀ st e,
  fetch_loop fuel net count st = Some e →
  requests_made st ≤ k < requests_of e →
  net k = RequestException detail →
  e = Failed detail (S k).
Proof.
  induction fuel as [|fuel IH]; intros st e; [done|].
  loop_step st; intros Hrun Hk Hnet; simplify_eq;
    cbn [requests_of count_request requests_made] in *; [..|lia].
  - apply (IH _ _ Hrun); [cbn [count_request requests_made]|done].
    destruct (decide (k = requests_made st)); [congruence|lia].
  - apply (IH _ _ Hrun); [|done].
    rewrite add_posts_requests. cbn [count_request requests_made].
    destruct (decide (k = requests_made st)); [congruence|lia].
  - assert (k = requests_made st) as -> by lia. congruence.
Qed.

Lemma run_loop_total : ∃ e, run_loop net count = Some e.
Proof. apply fetch_loop_total. cbn [start requests_made]. lia. Qed.

Lemma final_pool_length st :
  length (final_pool st)
  = size (collected_tags st) + size (collected_artist_tags st).
Proof. unfold final_pool. by rewrite length_app, length_fmap. Qed.

Lemma final_pool_NoDup st : tokens_only st → NoDup (final_pool st).
Proof.
  intros [Htags _]. unfold final_pool. apply NoDup_app. split_and!.
  - apply NoDup_elements.
  - intros s Hs [t [-> _]]%list_elem_of_fmap.
    apply elem_of_elements, Htags in Hs.
    by rewrite artist_entry_space in Hs.
  - apply (NoDup_fmap_2 _), NoDup_elements.
Qed.

Lemma final_pool_shape st s :
  tokens_only st → s ∈ final_pool st →
  whitespace_free s = true
  ∨ ∃ t, s = artist_entry t ∧ whitespace_free t = true.
Proof.
  intros [Htags Hartists]. unfold final_pool.
  rewrite elem_of_app, list_elem_of_fmap, elem_of_elements.
  intros [Hs|(t & -> & Ht)]; [left; auto|right].
  exists t. split; [done|]. by apply Hartists, elem_of_elements.
Qed.

End aggregation.

Lemma error_not_success detail : indicates_success (error_status detail) = false.
Proof. reflexivity. Qed.

Lemma warning_not_success found : indicates_success (warning_status found) = false.
Proof. unfold warning_status. by generalize (pretty found). Qed.

Lemma success_is_success generated :
  indicates_success (success_status generated) = true.
Proof. unfold success_status. by generalize (pretty generated). Qed.

(** * The claims about [fetch_tags] *)

(** C1: for every [count >= 0], when [fetch_tags] returns with a status
    that indicates success, the returned sample has exactly [count]
    elements, no two of them equal, and each of them is in the returned
    full pool. *)
Theorem fetch_tags_success_sample net g count r :
  (0 ≤ count)%Z →
  fetch_tags net g count = Some (Returned r) →
  indicates_success (status_message r) = true →
  Z.of_nat (length (list_of_tags r)) = count
  ∧ NoDup (list_of_tags r)
  ∧ list_of_tags r ⊆ full_tag_pool r.
Proof.
  intros _. unfold fetch_tags.
  destruct (run_loop net count) as [[st|detail n]|] eqn:Hrun; [..|done].
  - unfold finish. case_match.
    { intros [= <-]. simpl. by rewrite warning_not_success. }
    destruct (sample g (final_pool st) count) as [?|[chosen g']] eqn:Hsample;
      [done|].
    intros [= <-] _. simpl.
    apply sample_spec in Hsample as [Hlen [others Hperm]].
    assert (NoDup (final_pool st)) as Hnodup.
    { apply final_pool_NoDup.
      eapply fetch_loop_tokens_only; [exact Hrun|apply start_tokens_only]. }
    split_and!; [done|..].
    + rewrite Hperm in Hnodup. by apply NoDup_app in Hnodup as [? _].
    + intros s Hs. rewrite Hperm. apply elem_of_app. by left.
  - intros [= <-]. simpl. by rewrite error_not_success.
Qed.

(** C2: when the loop is left without a transport error and the combined
    pool is smaller than [count], [fetch_tags] returns the whole pool in
    the order [random.shuffle] leaves it in as the sample, the source set,
    the same list as the full pool, and the warning naming how many tags
    were found; every order of the pool is returned for some state of the
    generator. *)
Theorem fetch_tags_shortfall net g count st :
  run_loop net count = Some (Finished st) →
  (Z.of_nat (length (final_pool st)) < count)%Z →
  ∃ shuffled,
    fetch_tags net g count
    = Some (Returned (FetchResult shuffled (elements (source_post_urls st))
                                  shuffled
                                  ("Warning: Found only "
                                     +:+ pretty (length (final_pool st))
                                     +:+ " unique tags. Returning all.")))
    ∧ shuffled = (shuffle g (final_pool st)).1
    ∧ shuffled ≡ₚ final_pool st
    ∧ ∀ order, order ≡ₚ final_pool st →
        ∃ g', fetch_tags net g' count
              = Some (Returned (FetchResult order
                                  (elements (source_post_urls st)) order
                                  ("Warning: Found only "
                                     +:+ pretty (length (final_pool st))
                                     +:+ " unique tags. Returning all."))).
Proof.
  intros Hrun Hshort.
  assert (∀ h, fetch_tags net h count
    = Some (Returned (FetchResult (shuffle h (final_pool st)).1
                        (elements (source_post_urls st))
                        (shuffle h (final_pool st)).1
                        ("Warning: Found only "
                           +:+ pretty (length (final_pool st))
                           +:+ " unique tags. Returning all.")))) as Hfetch.
  { intros h. unfold fetch_tags, finish. rewrite Hrun.
    destruct (Z.ltb_spec (Z.of_nat (length (final_pool st))) count); [|lia].
    by rewrite (Permutation_length (shuffle_perm h (final_pool st))). }
  exists (shuffle g (final_pool st)).1.
  split_and!; [apply Hfetch|done|apply shuffle_perm|].
  intros order Horder.
  destruct (shuffle_reaches (final_pool st) order Horder) as [g' Hg'].
  exists g'. by rewrite Hfetch, Hg'.
Qed.

(** C3: when a request that is made fails with a transport or HTTP error,
    whatever was collected before, [fetch_tags] returns the empty tag
    list, the empty source list and the empty pool with the error status
    carrying the detail, and the failing request is the last one made. *)
Theorem fetch_tags_transport_error net g count e k detail :
  run_loop net count = Some e →
  k < requests_of e →
  net k = RequestException detail →
  fetch_tags net g count
  = Some (Returned (FetchResult [] [] []
            ("Error: Failed to fetch posts from Danbooru. " +:+ detail)))
  ∧ e = Failed detail (S k)
  ∧ requests_of e = S k.
Proof.
  intros Hrun Hk Hnet.
  assert (e = Failed detail (S k)) as ->.
  { eapply fetch_loop_failure; [exact Hrun| |exact Hnet].
    cbn [start requests_made]. lia. }
  unfold fetch_tags. by rewrite Hrun.
Qed.

(** C4: when [fetch_tags] returns without a transport error, the full
    pool has as many entries as the general set and the artist set
    together, no general entry equals an artist entry with its prefix,
    and no string is twice in the pool. *)
Theorem full_pool_partition net g count st r :
  run_loop net count = Some (Finished st) →
  fetch_tags net g count = Some (Returned r) →
  length (full_tag_pool r)
  = size (collected_tags st) + size (collected_artist_tags st)
  ∧ (∀ s t, s ∈ collected_tags st → t ∈ collected_artist_tags st →
            s ≠ artist_entry t)
  ∧ NoDup (full_tag_pool r)
  ∧ full_tag_pool r ≡ₚ final_pool st.
Proof.
  intros Hrun. unfold fetch_tags, finish. rewrite Hrun.
  assert (tokens_only st) as Htok.
  { eapply fetch_loop_tokens_only; [exact Hrun|apply start_tokens_only]. }
  pose proof (final_pool_NoDup st Htok) as Hnodup.
  pose proof (final_pool_length st) as Hlen.
  assert (∀ s t, s ∈ collected_tags st → t ∈ collected_artist_tags st →
                 s ≠ artist_entry t) as Hdisj.
  { intros s t Hs _. apply artist_entry_not_token. by apply (proj1 Htok). }
  case_match.
  - intros [= <-]. simpl.
    pose proof (shuffle_perm g (final_pool st)) as Hperm.
    split_and!; [|done| |done].
    + by rewrite (Permutation_length Hperm).
    + by rewrite Hperm.
  - destruct (sample g (final_pool st) count) as [?|[chosen g']]; [done|].
    intros [= <-]. simpl. done.
Qed.

(** C5: the threshold is [count * 3 + 20]; the loop goes on only while the
    two sets together are below it and fewer than 10 requests were made;
    each iteration counts one request, also when the answer is an empty
    list; so the loop always ends, after at most 10 requests. *)
Theorem fetch_loop_bounded net count :
  needed_candidates count = (count * 3 + 20)%Z
  ∧ (∀ st, keep_fetching count st = true ↔
       (Z.of_nat (size (collected_tags st) + size (collected_artist_tags st))
          < count * 3 + 20)%Z
       ∧ requests_made st < 10)
  ∧ (∀ fuel st, keep_fetching count st = false →
       fetch_loop (S fuel) net count st = Some (Finished st))
  ∧ (∀ fuel st posts, keep_fetching count st = true →
       net (requests_made st) = Posts posts →
       ∃ st', fetch_loop (S fuel) net count st = fetch_loop fuel net count st'
              ∧ requests_made st' = S (requests_made st)
              ∧ (posts = [] → st' = count_request st))
  ∧ (∀ st, run_loop net count = Some (Finished st) →
       keep_fetching count st = false)
  ∧ (∃ e, run_loop net count = Some e ∧ requests_of e ≤ 10)
  ∧ (∀ g, is_Some (fetch_tags net g count)).
Proof.
  split_and!.
  - done.
  - intros st. unfold keep_fetching, needed_candidates, max_requests.
    rewrite andb_true_iff, Z.ltb_lt, Nat.ltb_lt. done.
  - intros fuel st Hstop. cbn [fetch_loop]. by rewrite Hstop.
  - intros fuel st posts Hgo Hnet. cbn [fetch_loop]. rewrite Hgo, Hnet.
    destruct posts as [|p posts].
    + exists (count_request st). done.
    + exists (foldl add_post (count_request st) (p :: posts)).
      split_and!; [done| |done]. by rewrite add_posts_requests.
  - intros st Hrun. by eapply fetch_loop_exit_test.
  - destruct (run_loop_total net count) as [e Hrun]. exists e.
    split; [done|].
    apply (fetch_loop_requests net count _ _ _ Hrun).
    cbn [start requests_made]. unfold max_requests. lia.
  - intros g. unfold fetch_tags.
    destruct (run_loop_total net count) as [[st|detail n] ->]; eauto.
Qed.

(** C6, as amended: with [count = 0] the call returns, and its sample is
    empty, with the success status or, after a transport error, the error
    status; the shortfall branch is never taken.  The threshold is 20, the
    loop starts below it and makes at least one and at most ten requests;
    when it ends without a transport error, 20 candidates were collected
    or all ten requests were made. *)
Theorem fetch_tags_zero_count net g :
  needed_candidates 0 = 20%Z
  ∧ keep_fetching 0 start = true
  ∧ (∃ e, run_loop net 0 = Some e ∧ 1 ≤ requests_of e ≤ 10)
  ∧ (∀ st, run_loop net 0 = Some (Finished st) →
       (20 ≤ Z.of_nat (size (collected_tags st)
                       + size (collected_artist_tags st)))%Z
       ∨ requests_made st = 10)
  ∧ ∃ r, fetch_tags net g 0 = Some (Returned r)
         ∧ list_of_tags r = []
         ∧ (status_message r = "Success! Generated 0 tags from random posts."
            ∨ ∃ detail,
                status_message r
                = "Error: Failed to fetch posts from Danbooru. " +:+ detail).
Proof.
  split_and!; [done|done|..].
  - destruct (run_loop_total net 0) as [e Hrun]. exists e. split; [done|].
    pose proof (fetch_loop_requests net 0 _ _ _ Hrun) as Hmost.
    cbn [start requests_made] in Hmost. unfold max_requests in Hmost.
    split; [|lia].
    unfold run_loop in Hrun. cbn [fetch_loop] in Hrun.
    change (keep_fetching 0 start) with true in Hrun. cbn match in Hrun.
    destruct (net (requests_made start)) as [[|p posts]|detail];
      simplify_eq; cbn [requests_of]; [| |done];
      apply fetch_loop_requests in Hrun as [Hle _];
      rewrite ?add_posts_requests in *;
      cbn [count_request requests_made start] in *;
      unfold max_requests; lia.
  - intros st Hrun.
    pose proof (fetch_loop_requests net 0 _ _ _ Hrun) as Hmost.
    cbn [start requests_made requests_of] in Hmost.
    unfold max_requests in Hmost.
    apply fetch_loop_exit_test in Hrun.
    unfold keep_fetching, needed_candidates, max_requests in Hrun.
    apply andb_false_iff in Hrun as [Hfull|Hspent].
    + left. apply Z.ltb_ge in Hfull. lia.
    + right. apply Nat.ltb_ge in Hspent. lia.
  - unfold fetch_tags.
    destruct (run_loop_total net 0) as [[st|detail n] ->].
    + unfold finish.
      destruct (Z.ltb_spec (Z.of_nat (length (final_pool st))) 0); [lia|].
      unfold sample.
      destruct (Z.leb_spec 0 (Z.of_nat (length (final_pool st)))); [|lia].
      simpl. eexists. split_and!; [done..|]. by left.
    + eexists. split_and!; [done..|]. right. by exists detail.
Qed.

(** C9: for a negative [count], when the loop is left without a transport
    error, the shortfall branch is not taken and [random.sample], called
    with a negative size, raises [ValueError], which [fetch_tags] lets
    through. *)
Theorem fetch_tags_negative_count net g count st :
  (count < 0)%Z →
  run_loop net count = Some (Finished st) →
  (Z.of_nat (length (final_pool st)) <? count)%Z = false
  ∧ sample g (final_pool st) count
    = inl (ValueError "Sample larger than population or is negative")
  ∧ fetch_tags net g count
    = Some (Raised (ValueError "Sample larger than population or is negative")).
Proof.
  intros Hneg Hrun.
  assert ((Z.of_nat (length (final_pool st)) <? count)%Z = false) as Hlen.
  { apply Z.ltb_ge. lia. }
  pose proof (sample_negative g (final_pool st) count Hneg) as Hsample.
  split_and!; [done|done|].
  unfold fetch_tags, finish. by rewrite Hrun, Hlen, Hsample.
Qed.

(** C10: every entry of the full pool that [fetch_tags] returns is a token
    free of whitespace, or the prefix ["artist: "] in front of such a
    token; an entry free of whitespace never equals a prefixed one. *)
Theorem full_pool_entries net g count r s :
  fetch_tags net g count = Some (Returned r) →
  s ∈ full_tag_pool r →
  (whitespace_free s = true
   ∨ ∃ t, s = artist_entry t ∧ whitespace_free t = true)
  ∧ (∀ u t, whitespace_free u = true → u ≠ artist_entry t).
Proof.
  intros Hfetch Hs. split; [|intros u t; apply artist_entry_not_token].
  revert Hfetch. unfold fetch_tags.
  destruct (run_loop net count) as [[st|detail n]|] eqn:Hrun; [..|done].
  - assert (tokens_only st) as Htok.
    { eapply fetch_loop_tokens_only; [exact Hrun|apply start_tokens_only]. }
    unfold finish. case_match.
    + intros [= <-]. simpl in Hs. rewrite shuffle_perm in Hs.
      by apply (final_pool_shape st).
    + destruct (sample g (final_pool st) count) as [?|[chosen g']]; [done|].
      intros [= <-]. simpl in Hs. by apply (final_pool_shape st).
  - intros [= <-]. simpl in Hs. by apply elem_of_nil in Hs.
Qed.

(** * The claims about the application *)

Section app_claims.

Import TagGeneratorApp.

(** Goes through a list of effects that [H] claims to contain an effect
    of another kind. *)
Ltac scan_effects H :=
  repeat (apply elem_of_cons in H as [H|H]; [discriminate H|]);
  by apply elem_of_nil in H.

(** C7: in the random range mode, with a minimum above the maximum,
    [start_generation_thread] shows the validation error and starts no
    thread, so [fetch_tags] is not called. *)
Theorem inverted_range_rejected (self : instance) (g : rng) (min_val max_val : Z) :
  mode self ≠ "fixed" →
  py_int (min_entry self) = Some min_val →
  py_int (max_entry self) = Some max_val →
  (min_val > max_val)%Z →
  ShowError "Input Error"
            "Minimum value cannot be greater than the maximum value."
    ∈ (start_generation_thread self g).2
  ∧ (∀ count, StartThread count ∉ (start_generation_thread self g).2)
  ∧ validate_and_start self g
    = ShowError "Input Error"
                "Minimum value cannot be greater than the maximum value."
        :: give_back_control.
Proof.
  intros Hmode Hmin Hmax Hgt.
  assert (validate_and_start self g
          = ShowError "Input Error"
              "Minimum value cannot be greater than the maximum value."
              :: give_back_control) as Hbody.
  { unfold validate_and_start.
    apply String.eqb_neq in Hmode. rewrite Hmode, Hmin, Hmax.
    destruct (Z.gtb_spec min_val max_val); [done|lia]. }
  unfold start_generation_thread. cbn [snd]. rewrite Hbody.
  unfold give_back_control. cbn [app]. split_and!; [|intros count Hin|done].
  - do 7 apply list_elem_of_further. apply list_elem_of_here.
  - scan_effects Hin.
Qed.

(** C8: the export of the source URLs writes the URLs of the object in
    ascending order, joined by line feeds, and nothing else: the first
    URL, then each further one behind one line feed; nothing is written
    to another path or with another content. *)
Theorem save_post_sources_content (self : instance) (filepath : string) :
  post_source_urls self ≠ [] →
  filepath ≠ "" →
  save_post_sources self filepath None
  = [WriteFile filepath (py_join newline (py_sorted (post_source_urls self)));
     UpdateStatus ("Post sources saved to " +:+ filepath)]
  ∧ Sorted String.le (py_sorted (post_source_urls self))
  ∧ py_sorted (post_source_urls self) ≡ₚ post_source_urls self
  ∧ (∀ io_error path content,
       WriteFile path content ∈ save_post_sources self filepath io_error →
       path = filepath
       ∧ content = py_join newline (py_sorted (post_source_urls self)))
  ∧ ∃ first rest,
      py_sorted (post_source_urls self) = first :: rest
      ∧ save_post_sources self filepath None
        = [WriteFile filepath
             (foldl (λ text url, text +:+ String "010"%char url) first rest);
           UpdateStatus ("Post sources saved to " +:+ filepath)].
Proof.
  intros Hurls Hpath. apply String.eqb_neq in Hpath.
  assert (save_post_sources self filepath None
    = [WriteFile filepath (py_join newline (py_sorted (post_source_urls self)));
       UpdateStatus ("Post sources saved to " +:+ filepath)]) as Hwrite.
  { unfold save_post_sources. rewrite Hpath.
    by destruct (post_source_urls self). }
  split_and!.
  - done.
  - apply py_sorted_sorted.
  - apply py_sorted_perm.
  - intros io_error path content. unfold save_post_sources. rewrite Hpath.
    destruct (post_source_urls self) as [|u urls]; [done|].
    destruct io_error; intros Hin.
    + scan_effects Hin.
    + apply elem_of_cons in Hin as [[= -> ->]|Hin]; [done|].
      scan_effects Hin.
  - destruct (py_sorted (post_source_urls self)) as [|first rest] eqn:Hsorted.
    + pose proof (py_sorted_perm (post_source_urls self)) as Hperm.
      rewrite Hsorted in Hperm. by apply Permutation_nil in Hperm.
    + exists first, rest. split; [done|].
      by rewrite Hwrite, join_as_fold.
Qed.

End app_claims.

(** * The claims at the sample inputs *)

Lemma fetch_tags_success_sample_witness :
  fetch_tags steady_net sample_rng 2 = Some (Returned steady_result)
  ∧ Z.of_nat (length (list_of_tags steady_result)) = 2%Z
  ∧ NoDup (list_of_tags steady_result)
  ∧ list_of_tags steady_result ⊆ full_tag_pool steady_result.
Proof.
  assert (fetch_tags steady_net sample_rng 2 = Some (Returned steady_result))
    as Hfetch by (vm_compute; reflexivity).
  split; [exact Hfetch|].
  apply (fetch_tags_success_sample steady_net sample_rng 2 steady_result);
    [lia | exact Hfetch | reflexivity].
Defined.

Lemma fetch_tags_shortfall_witness :
  run_loop steady_net 20 = Some (Finished steady_collected)
  ∧ final_pool steady_collected
    = ["original"; "solo"; "1girl"; "long_hair"; "highres";
       "artist: foo"; "artist: bar"]
  ∧ fetch_tags steady_net sample_rng 20
    = Some (Returned (FetchResult
              ["artist: foo"; "artist: bar"; "solo"; "original"; "1girl";
               "highres"; "long_hair"]
              ["https://danbooru.donmai.us/posts/42"]
              ["artist: foo"; "artist: bar"; "solo"; "original"; "1girl";
               "highres"; "long_hair"]
              "Warning: Found only 7 unique tags. Returning all."))
  ∧ ∃ g', fetch_tags steady_net g' 20
          = Some (Returned (FetchResult
                    ["artist: bar"; "artist: foo"; "highres"; "long_hair";
                     "1girl"; "solo"; "original"]
                    ["https://danbooru.donmai.us/posts/42"]
                    ["artist: bar"; "artist: foo"; "highres"; "long_hair";
                     "1girl"; "solo"; "original"]
                    "Warning: Found only 7 unique tags. Returning all.")).
Proof.
  assert (run_loop steady_net 20 = Some (Finished steady_collected))
    as Hrun by (vm_compute; reflexivity).
  destruct (fetch_tags_shortfall steady_net sample_rng 20 steady_collected
              Hrun ltac:(vm_compute; reflexivity))
    as (shuffled & Hfetch & Hshuffled & _ & Hevery).
  split_and!; [exact Hrun | vm_compute; reflexivity | |].
  - rewrite Hfetch, Hshuffled. vm_compute. reflexivity.
  - destruct (Hevery (reverse (final_pool steady_collected))
                (reverse_Permutation _)) as [g' Hg'].
    exists g'. rewrite Hg'. vm_compute. reflexivity.
Defined.

Lemma fetch_tags_transport_error_witness :
  run_loop flaky_net 2 = Some (Failed "timed out" 3)
  ∧ fetch_tags flaky_net sample_rng 2
    = Some (Returned (FetchResult [] [] []
              "Error: Failed to fetch posts from Danbooru. timed out"))
  ∧ Failed "timed out" 3 = Failed "timed out" 3
  ∧ requests_of (Failed "timed out" 3) = 3.
Proof.
  assert (run_loop flaky_net 2 = Some (Failed "timed out" 3))
    as Hrun by (vm_compute; reflexivity).
  split; [exact Hrun|].
  apply (fetch_tags_transport_error flaky_net sample_rng 2
           (Failed "timed out" 3) 2 "timed out");
    [exact Hrun | simpl; lia | reflexivity].
Defined.

Lemma full_pool_partition_witness :
  length (full_tag_pool steady_result)
  = size (collected_tags steady_collected)
    + size (collected_artist_tags steady_collected)
  ∧ (∀ s t, s ∈ collected_tags steady_collected →
            t ∈ collected_artist_tags steady_collected →
            s ≠ artist_entry t)
  ∧ NoDup (full_tag_pool steady_result)
  ∧ full_tag_pool steady_result ≡ₚ final_pool steady_collected.
Proof.
  apply (full_pool_partition steady_net sample_rng 2);
    vm_compute; reflexivity.
Defined.

Lemma fetch_tags_negative_count_witness :
  (Z.of_nat (length (final_pool steady_collected)) <? -3)%Z = false
  ∧ sample sample_rng (final_pool steady_collected) (-3)
    = inl (ValueError "Sample larger than population or is negative")
  ∧ fetch_tags steady_net sample_rng (-3)
    = Some (Raised (ValueError "Sample larger than population or is negative")).
Proof.
  apply (fetch_tags_negative_count steady_net sample_rng (-3) steady_collected);
    [lia | vm_compute; reflexivity].
Defined.

Lemma full_pool_entries_witness :
  (whitespace_free "artist: foo" = true
   ∨ ∃ t, "artist: foo" = artist_entry t ∧ whitespace_free t = true)
  ∧ (∀ u t, whitespace_free u = true → u ≠ artist_entry t).
Proof.
  apply (full_pool_entries steady_net sample_rng 2 steady_result "artist: foo").
  - vm_compute. reflexivity.
  - do 5 apply list_elem_of_further. apply list_elem_of_here.
Defined.

(** C6, as the claim has it, fails: with a count of 0 the threshold is not
    met by the empty sets the loop starts from, and against an endpoint
    that only gives empty lists all ten requests are made. *)
Lemma zero_count_threshold_counterexample :
  run_loop empty_net 0 = Some (Finished (Collected ∅ ∅ ∅ 10))
  ∧ ¬ (needed_candidates 0
       ≤ Z.of_nat (size (collected_tags start)
                   + size (collected_artist_tags start)))%Z.
Proof.
  split; [vm_compute; reflexivity|].
  vm_compute. intros Hle. by apply Hle.
Qed.

Section app_witnesses.

Import TagGeneratorApp.

Lemma inverted_range_rejected_witness :
  ShowError "Input Error"
            "Minimum value cannot be greater than the maximum value."
    ∈ (start_generation_thread inverted_form sample_rng).2
  ∧ (∀ count,
       StartThread count ∉ (start_generation_thread inverted_form sample_rng).2)
  ∧ validate_and_start inverted_form sample_rng
    = ShowError "Input Error"
                "Minimum value cannot be greater than the maximum value."
        :: give_back_control.
Proof.
  apply (inverted_range_rejected inverted_form sample_rng 10 5);
    [discriminate | reflexivity | reflexivity | lia].
Defined.

Lemma save_post_sources_content_witness :
  save_post_sources fetched_form "sources.txt" None
  = [WriteFile "sources.txt"
       ("https://danbooru.donmai.us/posts/10"
          +:+ String "010"%char "https://danbooru.donmai.us/posts/9");
     UpdateStatus "Post sources saved to sources.txt"]
  ∧ save_post_sources fetched_form "sources.txt" None
    = [WriteFile "sources.txt"
         (py_join newline (py_sorted (post_source_urls fetched_form)));
       UpdateStatus ("Post sources saved to " +:+ "sources.txt")]
  ∧ Sorted String.le (py_sorted (post_source_urls fetched_form))
  ∧ py_sorted (post_source_urls fetched_form) ≡ₚ post_source_urls fetched_form
  ∧ (∀ io_error path content,
       WriteFile path content
         ∈ save_post_sources fetched_form "sources.txt" io_error →
       path = "sources.txt"
       ∧ content
         = py_join newline (py_sorted (post_source_urls fetched_form)))
  ∧ ∃ first rest,
      py_sorted (post_source_urls fetched_form) = first :: rest
      ∧ save_post_sources fetched_form "sources.txt" None
        = [WriteFile "sources.txt"
             (foldl (λ text url, text +:+ String "010"%char url) first rest);
           UpdateStatus ("Post sources saved to " +:+ "sources.txt")].
Proof.
  pose proof (save_post_sources_content fetched_form "sources.txt"
                ltac:(discriminate) ltac:(discriminate)) as Hall.
  split; [|exact Hall].
  destruct Hall as (_ & _ & _ & _ & first & rest & Hsorted & Hwrite).
  rewrite Hwrite. vm_compute in Hsorted. injection Hsorted as <- <-.
  reflexivity.
Defined.

End app_witnesses.

(** * More on the aggregation loop *)

Section more_aggregation.

Variables (net : network) (count : Z).
Implicit Types (st : collected) (p : post) (posts : list post).

Lemma collected_eq st st' :
  collected_tags st = collected_tags st' →
  collected_artist_tags st = collected_artist_tags st' →
  source_post_urls st = source_post_urls st' →
  requests_made st = requests_made st' →
  st = st'.
Proof. destruct st, st'; simpl; by intros -> -> -> ->. Qed.

Lemma add_post_tags st p s :
  s ∈ collected_tags (add_post st p) ↔
  s ∈ collected_tags st ∨ s ∈ general_tokens p.
Proof.
  unfold general_tokens. simpl.
  rewrite !elem_of_union, !elem_of_list_to_set, !elem_of_app. tauto.
Qed.

Lemma add_post_artists st p t :
  t ∈ collected_artist_tags (add_post st p) ↔
  t ∈ collected_artist_tags st ∨ t ∈ artist_tokens p.
Proof.
  unfold artist_tokens. simpl.
  by rewrite elem_of_union, elem_of_list_to_set.
Qed.

Lemma add_post_urls st p u :
  u ∈ source_post_urls (add_post st p) ↔
  u ∈ source_post_urls st ∨ ∃ n, post_id p = Some n ∧ u = post_url n.
Proof.
  simpl. destruct (post_id p) as [n|].
  - rewrite elem_of_union, elem_of_singleton. split.
    + intros [? | ->]; [by left|right; eauto].
    + intros [?|(m & Hm & ->)]; [by left|]. injection Hm as <-. by right.
  - split; [by left|]. by intros [?|(m & Hm & _)].
Qed.

Lemma add_posts_tags posts : ∀ st s,
  s ∈ collected_tags (foldl add_post st posts) ↔
  s ∈ collected_tags st ∨ ∃ p, p ∈ posts ∧ s ∈ general_tokens p.
Proof.
  induction posts as [|q posts IH]; intros st s; simpl.
  - split; [by left|]. intros [?|(p & Hp & _)]; [done|].
    by apply elem_of_nil in Hp.
  - rewrite IH, add_post_tags. split.
    + intros [[?|?]|(p & Hp & Hs)]; [by left|right..].
      * exists q. split; [apply list_elem_of_here|done].
      * exists p. split; [by apply list_elem_of_further|done].
    + intros [?|(p & Hp & Hs)]; [by left; left|].
      apply elem_of_cons in Hp as [->|Hp]; [by left; right|].
      right. eauto.
Qed.

Lemma add_posts_artists posts : ∀ st t,
  t ∈ collected_artist_tags (foldl add_post st posts) ↔
  t ∈ collected_artist_tags st ∨ ∃ p, p ∈ posts ∧ t ∈ artist_tokens p.
Proof.
  induction posts as [|q posts IH]; intros st t; simpl.
  - split; [by left|]. intros [?|(p & Hp & _)]; [done|].
    by apply elem_of_nil in Hp.
  - rewrite IH, add_post_artists. split.
    + intros [[?|?]|(p & Hp & Hs)]; [by left|right..].
      * exists q. split; [apply list_elem_of_here|done].
      * exists p. split; [by apply list_elem_of_further|done].
    + intros [?|(p & Hp & Hs)]; [by left; left|].
      apply elem_of_cons in Hp as [->|Hp]; [by left; right|].
      right. eauto.
Qed.

Lemma add_posts_urls posts : ∀ st u,
  u ∈ source_post_urls (foldl add_post st posts) ↔
  u ∈ source_post_urls st
  ∨ ∃ p n, p ∈ posts ∧ post_id p = Some n ∧ u = post_url n.
Proof.
  induction posts as [|q posts IH]; intros st u; simpl.
  - split; [by left|]. intros [?|(p & n & Hp & _)]; [done|].
    by apply elem_of_nil in Hp.
  - rewrite IH, add_post_urls. split.
    + intros [[?|(n & Hn & ->)]|(p & n & Hp & Hn & ->)]; [by left|right..].
      * exists q, n. split; [apply list_elem_of_here|done].
      * exists p, n. split; [by apply list_elem_of_further|done].
    + intros [?|(p & n & Hp & Hn & ->)]; [by left; left|].
      apply elem_of_cons in Hp as [->|Hp]; [left; right; eauto|].
      right. eauto.
Qed.

Lemma merge_sources {X} (A B T : X → Prop) :
  (∃ x, A x ∧ T x) ∨ (∃ x, B x ∧ T x) ↔ ∃ x, (A x ∨ B x) ∧ T x.
Proof.
  split.
  - intros [(x & ? & ?)|(x & ? & ?)]; exists x; tauto.
  - intros (x & [?|?] & ?); [left|right]; exists x; tauto.
Qed.

Lemma merge_sources2 {X Y} (A B : X → Prop) (T : X → Y → Prop) :
  (∃ x y, A x ∧ T x y) ∨ (∃ x y, B x ∧ T x y) ↔ ∃ x y, (A x ∨ B x) ∧ T x y.
Proof.
  split.
  - intros [(x & y & ? & ?)|(x & y & ? & ?)]; exists x, y; tauto.
  - intros (x & y & [?|?] & ?); [left|right]; exists x, y; tauto.
Qed.

Lemma answered_next k posts p :
  net k = Posts posts →
  answered net (S k) p ↔ answered net k p ∨ p ∈ posts.
Proof.
  intros Hnet. unfold answered. split.
  - intros (i & ps & Hi & Hps & Hp).
    destruct (decide (i = k)) as [->|Hne].
    + right. congruence.
    + left. exists i, ps. split; [lia|done].
  - intros [(i & ps & Hi & Hps & Hp)|Hp].
    + exists i, ps. split; [lia|done].
    + exists k, posts. split; [lia|done].
Qed.

Lemma records_answers_start : records_answers net start.
Proof.
  unfold records_answers, answered. cbn [start requests_made collected_tags
    collected_artist_tags source_post_urls].
  split_and!; intros x; (split; [by intros ?%elem_of_empty|]).
  - intros (p & (i & ? & ? & _) & _). lia.
  - intros (p & (i & ? & ? & _) & _). lia.
  - intros (p & n & (i & ? & ? & _) & _). lia.
Qed.

Lemma records_answers_next st posts :
  net (requests_made st) = Posts posts →
  records_answers net st →
  records_answers net (foldl add_post (count_request st) posts).
Proof.
  intros Hnet (Htags & Hartists & Hurls). unfold records_answers.
  rewrite add_posts_requests. cbn [count_request requests_made].
  split_and!.
  - intros s. rewrite add_posts_tags. cbn [count_request collected_tags].
    rewrite Htags. setoid_rewrite (answered_next _ _ _ Hnet).
    apply merge_sources.
  - intros t. rewrite add_posts_artists.
    cbn [count_request collected_artist_tags].
    rewrite Hartists. setoid_rewrite (answered_next _ _ _ Hnet).
    apply merge_sources.
  - intros u. rewrite add_posts_urls. cbn [count_request source_post_urls].
    rewrite Hurls. setoid_rewrite (answered_next _ _ _ Hnet).
    apply merge_sources2.
Qed.

Lemma fetch_loop_records fuel : ∀ st st',
  fetch_loop fuel net count st = Some (Finished st') →
  records_answers net st → records_answers net st'.
Proof.
  induction fuel as [|fuel IH]; intros st st'; [done|].
  cbn [fetch_loop]. destruct (keep_fetching count st); [|by intros [= <-]].
  destruct (net (requests_made st)) as [posts|detail] eqn:Hnet; [|done].
  intros Hrun Hst.
  apply (IH (foldl add_post (count_request st) posts)).
  - by destruct posts.
  - by apply records_answers_next.
Qed.

(** The loop is left through the [except] clause only at a request that
    raised, and every request before it was answered. *)
Lemma fetch_loop_failed_at fuel : ∀ st detail n,
  fetch_loop fuel net count st = Some (Failed detail n) →
  ∃ k, n = S k ∧ requests_made st ≤ k ∧ net k = RequestException detail
       ∧ ∀ i, requests_made st ≤ i < k → ∃ posts, net i = Posts posts.
Proof.
  induction fuel as [|fuel IH]; intros st detail n; [done|].
  cbn [fetch_loop]. destruct (keep_fetching count st); [|done].
  destruct (net (requests_made st)) as [posts|d] eqn:Hnet.
  - intros Hrun.
    assert (fetch_loop fuel net count (foldl add_post (count_request st) posts)
            = Some (Failed detail n)) as Hrun' by by destruct posts.
    apply IH in Hrun' as (k & -> & Hk & Hfail & Hbefore).
    rewrite add_posts_requests in Hk, Hbefore.
    cbn [count_request requests_made] in Hk, Hbefore.
    exists k. split_and!; [done|lia|done|].
    intros i Hi. destruct (decide (i = requests_made st)) as [->|Hne]; [eauto|].
    apply Hbefore. lia.
  - intros [= <- <-]. cbn [count_request requests_made].
    exists (requests_made st). split_and!; [done|lia|done|]. intros i Hi. lia.
Qed.

End more_aggregation.

(** * More on [fetch_tags] *)

Lemma run_loop_records net count st :
  run_loop net count = Some (Finished st) → records_answers net st.
Proof.
  intros Hrun. eapply fetch_loop_records; [exact Hrun|].
  apply records_answers_start.
Qed.

Lemma fetch_tags_finished net g count st :
  run_loop net count = Some (Finished st) →
  fetch_tags net g count = Some (finish g count st).
Proof. intros Hrun. unfold fetch_tags. by rewrite Hrun. Qed.

(** Whatever branch returns, the pool is the combined pool up to its
    order and the sources are the list of the URL set. *)
Lemma finish_returned g count st r :
  finish g count st = Returned r →
  full_tag_pool r ≡ₚ final_pool st
  ∧ list_of_post_urls r = elements (source_post_urls st).
Proof.
  unfold finish. case_match.
  - intros [= <-]. simpl. split; [apply shuffle_perm|done].
  - destruct (sample g (final_pool st) count) as [?|[chosen g']]; [done|].
    by intros [= <-].
Qed.

Lemma finish_negative g count st :
  (count < 0)%Z →
  finish g count st
  = Raised (ValueError "Sample larger than population or is negative").
Proof.
  intros Hneg. unfold finish.
  destruct (Z.ltb_spec (Z.of_nat (length (final_pool st))) count); [lia|].
  by rewrite sample_negative.
Qed.

(** X1: when [fetch_tags] returns after a loop without transport error,
    the full pool holds exactly the tokens of the general, copyright,
    character and meta fields of the posts answered, and the tokens of
    their artist fields behind the prefix. *)
Theorem full_pool_from_posts net g count st r s :
  run_loop net count = Some (Finished st) →
  fetch_tags net g count = Some (Returned r) →
  s ∈ full_tag_pool r ↔
  (∃ p, answered net (requests_made st) p ∧ s ∈ general_tokens p)
  ∨ (∃ p t, answered net (requests_made st) p ∧ t ∈ artist_tokens p
            ∧ s = artist_entry t).
Proof.
  intros Hrun Hfetch.
  rewrite (fetch_tags_finished net g count st Hrun) in Hfetch.
  injection Hfetch as Hfinish.
  apply finish_returned in Hfinish as [Hperm _].
  destruct (run_loop_records net count st Hrun) as (Htags & Hartists & _).
  rewrite Hperm. unfold final_pool.
  rewrite elem_of_app, list_elem_of_fmap, elem_of_elements, Htags.
  apply or_iff_compat_l. split.
  - intros (t & -> & Ht). apply elem_of_elements, Hartists in Ht as (p & ? & ?).
    exists p, t. done.
  - intros (p & t & Hp & Ht & ->). exists t. split; [done|].
    apply elem_of_elements, Hartists. eauto.
Qed.



(** X4: [fetch_tags] gives the error result only when a request really
    raised: the loop is left through the [except] clause at a request
    [k < 10] that raised the reported detail, and every request before it
    was answered with a list of posts. *)
Theorem error_only_on_failure net count detail n :
  run_loop net count = Some (Failed detail n) →
  ∃ k, n = S k ∧ k < 10 ∧ net k = RequestException detail
       ∧ ∀ i, i < k → ∃ posts, net i = Posts posts.
Proof.
  intros Hrun.
  pose proof (fetch_loop_requests net count _ _ _ Hrun) as Hbound.
  apply fetch_loop_failed_at in Hrun as (k & -> & _ & Hfail & Hbefore).
  cbn [start requests_made requests_of] in *. unfold max_requests in Hbound.
  exists k. split_and!; [done|lia|done|].
  intros i Hi. apply Hbefore. lia.
Qed.

(** X5: for [count <= -7] the threshold is negative, so no request is
    made at all and [random.sample] raises at once; for [count >= -6] at
    least one request is made. *)
Theorem requests_by_count net g count :
  ((count ≤ -7)%Z →
     run_loop net count = Some (Finished start)
     ∧ fetch_tags net g count
       = Some (Raised (ValueError "Sample larger than population or is negative")))
  ∧ ((-6 ≤ count)%Z → ∃ e, run_loop net count = Some e ∧ 1 ≤ requests_of e).
Proof.
  assert (size (collected_tags start) + size (collected_artist_tags start) = 0)
    as Hsize by done.
  split; intros Hcount.
  - assert (run_loop net count = Some (Finished start)) as Hrun.
    { unfold run_loop. cbn [fetch_loop].
      assert (keep_fetching count start = false) as ->; [|done].
      unfold keep_fetching, needed_candidates. rewrite Hsize.
      apply andb_false_iff. left. apply Z.ltb_ge. lia. }
    split; [done|].
    rewrite (fetch_tags_finished net g count start Hrun).
    f_equal. apply finish_negative. lia.
  - destruct (run_loop_total net count) as [e Hrun]. exists e. split; [done|].
    unfold run_loop in Hrun. cbn [fetch_loop] in Hrun.
    assert (keep_fetching count start = true) as Hgo.
    { unfold keep_fetching, needed_candidates. rewrite Hsize.
      apply andb_true_iff. split; [apply Z.ltb_lt; lia|done]. }
    rewrite Hgo in Hrun.
    destruct (net (requests_made start)) as [posts|detail].
    + assert (fetch_loop max_requests net count
                (foldl add_post (count_request start) posts) = Some e)
        as Hrun' by by destruct posts.
      apply fetch_loop_requests in Hrun' as [Hle _];
        rewrite add_posts_requests in *;
        cbn [count_request requests_made start] in *;
        unfold max_requests; lia.
    + by injection Hrun as <-.
Qed.

(** X6: what [for post in posts] collects depends on which posts the
    answer holds, not on their order nor on how often one comes. *)
Theorem add_posts_same_posts st posts posts' :
  (∀ p, p ∈ posts ↔ p ∈ posts') →
  foldl add_post st posts = foldl add_post st posts'.
Proof.
  intros Hsame. apply collected_eq.
  - apply set_eq. intros s. rewrite !add_posts_tags.
    by setoid_rewrite Hsame.
  - apply set_eq. intros t. rewrite !add_posts_artists.
    by setoid_rewrite Hsame.
  - apply set_eq. intros u. rewrite !add_posts_urls.
    by setoid_rewrite Hsame.
  - by rewrite !add_posts_requests.
Qed.

(** X7: a post leaves the collected sets as they are exactly when all
    its tokens and its URL are in them already. *)
Theorem add_post_nothing_new st p :
  add_post st p = st ↔
  (∀ s, s ∈ general_tokens p → s ∈ collected_tags st)
  ∧ (∀ t, t ∈ artist_tokens p → t ∈ collected_artist_tags st)
  ∧ (∀ n, post_id p = Some n → post_url n ∈ source_post_urls st).
Proof.
  split.
  - intros Hsame. split_and!.
    + intros s Hs. rewrite <- Hsame. apply add_post_tags. by right.
    + intros t Ht. rewrite <- Hsame. apply add_post_artists. by right.
    + intros n Hn. rewrite <- Hsame. apply add_post_urls. right. eauto.
  - intros (Htags & Hartists & Hurls). apply collected_eq; [..|done].
    + apply set_eq. intros s. rewrite add_post_tags.
      split; [intros [?|?]; auto|by left].
    + apply set_eq. intros t. rewrite add_post_artists.
      split; [intros [?|?]; auto|by left].
    + apply set_eq. intros u. rewrite add_post_urls.
      split; [intros [?|(n & Hn & ->)]; auto|by left].
Qed.

Lemma fetch_loop_empty_answers net count fuel : ∀ k,
  (∀ i, i < 10 → net i = Posts []) →
  (0 < needed_candidates count)%Z →
  k ≤ 10 → 10 - k < fuel →
  fetch_loop fuel net count (Collected ∅ ∅ ∅ k)
  = Some (Finished (Collected ∅ ∅ ∅ 10)).
Proof.
  induction fuel as [|fuel IH]; intros k Hnet Hneed Hk Hfuel; [lia|].
  assert (keep_fetching count (Collected ∅ ∅ ∅ k) = (k <? 10)%nat) as Htest.
  { unfold keep_fetching, max_requests.
    cbn [collected_tags collected_artist_tags requests_made].
    rewrite size_empty. change (Z.of_nat (0 + 0)) with 0%Z.
    by rewrite (proj2 (Z.ltb_lt _ _) Hneed). }
  cbn [fetch_loop]. rewrite Htest. cbn [requests_made].
  destruct (Nat.ltb_spec k 10).
  - rewrite Hnet by done. apply (IH (S k)); [done|done|lia|lia].
  - by assert (k = 10) as -> by lia.
Qed.

(** X8: against an endpoint that answers every request with an empty list
    of posts, a count of at least 1 uses up all ten requests and returns
    the warning for 0 tags with three empty lists. *)
Theorem fetch_tags_empty_answers net g count :
  (∀ i, i < 10 → net i = Posts []) →
  (1 ≤ count)%Z →
  run_loop net count = Some (Finished (Collected ∅ ∅ ∅ 10))
  ∧ fetch_tags net g count
    = Some (Returned (FetchResult [] [] []
              "Warning: Found only 0 unique tags. Returning all.")).
Proof.
  intros Hnet Hcount.
  assert (run_loop net count = Some (Finished (Collected ∅ ∅ ∅ 10))) as Hrun.
  { apply fetch_loop_empty_answers; [done| |lia|unfold max_requests; lia].
    unfold needed_candidates. lia. }
  split; [done|].
  rewrite (fetch_tags_finished net g count _ Hrun). f_equal.
  unfold finish.
  change (final_pool (Collected ∅ ∅ ∅ 10)) with (@nil string).
  change (elements (source_post_urls (Collected ∅ ∅ ∅ 10))) with (@nil string).
  assert ((Z.of_nat (length (@nil string)) <? count)%Z = true) as ->
    by (apply Z.ltb_lt; simpl; lia).
  reflexivity.
Qed.

(** X10: the generator only decides which sample is drawn and in which
    order the pool is listed: with another generator [fetch_tags] returns
    the same sources and the same status, the same pool up to its order,
    and a sample of the same length. *)
Theorem randomness_only_in_sample net g g' count r :
  fetch_tags net g count = Some (Returned r) →
  ∃ r', fetch_tags net g' count = Some (Returned r')
        ∧ list_of_post_urls r' = list_of_post_urls r
        ∧ status_message r' = status_message r
        ∧ full_tag_pool r' ≡ₚ full_tag_pool r
        ∧ length (list_of_tags r') = length (list_of_tags r).
Proof.
  unfold fetch_tags.
  destruct (run_loop net count) as [[st|detail n]|]; [..|done].
  - unfold finish. case_match.
    + intros [= <-]. eexists. split; [done|]. simpl.
      pose proof (shuffle_perm g (final_pool st)) as Hg.
      pose proof (shuffle_perm g' (final_pool st)) as Hg'.
      split_and!; [done| |by rewrite Hg, Hg'|].
      * by rewrite (Permutation_length Hg), (Permutation_length Hg').
      * by rewrite (Permutation_length Hg), (Permutation_length Hg').
    + destruct (sample g (final_pool st) count) as [?|[chosen h]] eqn:Hs;
        [done|].
      intros [= <-].
      assert (0 ≤ count ≤ Z.of_nat (length (final_pool st)))%Z as Hrange.
      { apply sample_spec in Hs as [Hlen [others Hperm]].
        rewrite Hperm, length_app. lia. }
      destruct (sample_in_range g' (final_pool st) count Hrange)
        as (chosen' & h' & Hs').
      rewrite Hs'. eexists. split; [done|]. simpl.
      apply sample_spec in Hs as [Hlen _].
      apply sample_spec in Hs' as [Hlen' _].
      assert (length chosen' = length chosen) as -> by lia. done.
  - intros [= <-]. eexists. split; [done|]. done.
Qed.

(** * More on the string functions *)

Section more_strings.

Implicit Types (s t sep : string) (tok : list ascii).

Lemma whitespace_free_cons c s :
  whitespace_free (String c s) = true ↔
  is_py_space c = false ∧ whitespace_free s = true.
Proof.
  unfold whitespace_free. simpl.
  by rewrite andb_true_iff, negb_true_iff.
Qed.

Lemma whitespace_free_app s t :
  whitespace_free (s +:+ t) = true ↔
  whitespace_free s = true ∧ whitespace_free t = true.
Proof.
  induction s as [|c s IH].
  - split; [by intros ?|by intros [_ ?]].
  - rewrite string_app_cons, !whitespace_free_cons, IH. tauto.
Qed.

(** Reading a token that holds no whitespace only grows the token. *)
Lemma split_from_token t : ∀ tok rest,
  whitespace_free t = true →
  split_from tok (t +:+ rest)
  = split_from (rev (String.list_ascii_of_string t) ++ tok) rest.
Proof.
  induction t as [|c t IH]; intros tok rest Hfree; [done|].
  apply whitespace_free_cons in Hfree as [Hc Hfree].
  rewrite string_app_cons. cbn [split_from]. rewrite Hc, IH by done.
  cbn [String.list_ascii_of_string rev]. by rewrite <- List.app_assoc.
Qed.

Lemma split_from_blank sep : ∀ rest,
  Forall (λ c, is_py_space c = true) (String.list_ascii_of_string sep) →
  split_from [] (sep +:+ rest) = split_from [] rest.
Proof.
  induction sep as [|c sep IH]; intros rest Hblank; [done|].
  cbn in Hblank. apply Forall_cons in Hblank as [Hc Hblank].
  rewrite string_app_cons. cbn [split_from]. rewrite Hc. by apply IH.
Qed.

Lemma flush_read_token t :
  t ≠ "" →
  flush_token (rev (String.list_ascii_of_string t) ++ []) = [t].
Proof.
  intros Ht. rewrite List.app_nil_r.
  destruct (rev (String.list_ascii_of_string t)) as [|c cs] eqn:Hrev.
  - apply (f_equal (@rev ascii)) in Hrev. rewrite rev_involutive in Hrev.
    apply (f_equal String.string_of_list_ascii) in Hrev.
    rewrite String.string_of_list_ascii_of_string in Hrev. done.
  - unfold flush_token. rewrite <- Hrev, rev_involutive.
    by rewrite String.string_of_list_ascii_of_string.
Qed.

(** Tokens free of whitespace, joined by a separator made of whitespace,
    come back from [split]. *)
Lemma py_split_join sep tokens :
  sep ≠ "" →
  Forall (λ c, is_py_space c = true) (String.list_ascii_of_string sep) →
  Forall (λ t, whitespace_free t = true ∧ t ≠ "") tokens →
  py_split (py_join sep tokens) = tokens.
Proof.
  intros Hsep Hblank Htokens. unfold py_split, py_join.
  induction Htokens as [|t tokens [Hfree Hne] Htokens IH]; [done|].
  destruct tokens as [|t' tokens].
  - cbn [String.concat]. rewrite <- (string_app_nil_r t) at 1.
    rewrite split_from_token by done. cbn [split_from].
    by apply flush_read_token.
  - cbn [String.concat]. rewrite split_from_token by done.
    destruct sep as [|c sep]; [done|].
    cbn in Hblank. apply Forall_cons in Hblank as [Hc Hblank].
    rewrite string_app_cons. cbn [split_from].
    rewrite Hc, split_from_blank by done.
    rewrite flush_read_token by done. simpl. f_equal. exact IH.
Qed.

Lemma string_rev_app_spec s : ∀ t, String.rev_app s t = String.rev s +:+ t.
Proof.
  unfold String.rev. induction s as [|c s IH]; intros t; [done|].
  cbn [String.rev_app]. rewrite IH, (IH (String c "")).
  by rewrite string_app_assoc.
Qed.

Lemma string_rev_cons c s : String.rev (String c s) = String.rev s +:+ String c "".
Proof. unfold String.rev at 1. cbn [String.rev_app]. apply string_rev_app_spec. Qed.

Lemma string_rev_app_distr s t : String.rev (s +:+ t) = String.rev t +:+ String.rev s.
Proof.
  induction s as [|c s IH].
  - by rewrite string_app_nil_r.
  - by rewrite string_app_cons, !string_rev_cons, IH, string_app_assoc.
Qed.

Lemma lstrip_app s t :
  lstrip s ≠ "" → lstrip (s +:+ t) = lstrip s +:+ t.
Proof.
  induction s as [|c s IH]; intros Hs; [done|].
  rewrite string_app_cons. cbn [lstrip] in *. destruct (is_py_space c); auto.
Qed.

Lemma lstrip_app_blank s t : lstrip s = "" → lstrip (s +:+ t) = lstrip t.
Proof.
  induction s as [|c s IH]; intros Hs; [done|].
  rewrite string_app_cons. cbn [lstrip] in *. destruct (is_py_space c); [auto|done].
Qed.

(** A line end after the text does not survive [strip]. *)
Lemma py_strip_newline s : py_strip (s +:+ newline) = py_strip s.
Proof.
  unfold py_strip. destruct (decide (lstrip s = "")) as [Hblank|Hsome].
  - by rewrite lstrip_app_blank, Hblank.
  - by rewrite lstrip_app, string_rev_app_distr.
Qed.

Lemma pretty_N_char_free (n : N) : is_py_space (pretty_N_char n) = false.
Proof. unfold pretty_N_char. by repeat case_match. Qed.

Lemma pretty_N_go_free (x : N) : ∀ s,
  whitespace_free s = true → whitespace_free (pretty_N_go x s) = true.
Proof.
  induction (N.lt_wf_0 x) as [x _ IH]; intros s Hs.
  destruct (decide (x = 0)%N) as [->|Hx]; [by rewrite pretty_N_go_0|].
  rewrite pretty_N_go_step by lia.
  apply IH; [apply N.div_lt; lia|].
  apply whitespace_free_cons. split; [apply pretty_N_char_free|done].
Qed.

Lemma pretty_Z_free (n : Z) : whitespace_free (pretty n) = true.
Proof.
  unfold pretty, pretty_Z. destruct n as [|p|p]; [done|..].
  - unfold pretty, pretty_positive, pretty, pretty_N. case_decide; [done|].
    by apply pretty_N_go_free.
  - apply whitespace_free_app. split; [done|].
    unfold pretty, pretty_positive, pretty, pretty_N. case_decide; [done|].
    by apply pretty_N_go_free.
Qed.

Lemma post_url_token (n : Z) :
  whitespace_free (post_url n) = true ∧ post_url n ≠ "".
Proof.
  unfold post_url. split; [|done].
  apply whitespace_free_app. split; [done|apply pretty_Z_free].
Qed.

End more_strings.

(** X9: a tag field that lists tags free of whitespace, separated by
    whitespace, gives back these tags in their order. *)
Theorem field_tags_of_joined (sep : string) (tags : list string) :
  sep ≠ "" →
  Forall (λ c, is_py_space c = true) (String.list_ascii_of_string sep) →
  Forall (λ t, whitespace_free t = true ∧ t ≠ "") tags →
  field_tags (Some (py_join sep tags)) = tags.
Proof. intros Hsep Hblank Htags. by apply py_split_join. Qed.

(** * More on the application *)

Section more_app.

Import TagGeneratorApp.

Implicit Types (self : instance) (g : rng).

Ltac scan_effects H :=
  repeat (apply elem_of_cons in H as [H|H]; [discriminate H|]);
  by apply elem_of_nil in H.

Lemma randint_range g (a b : Z) : (a ≤ b)%Z → (a ≤ (randint g a b).1 ≤ b)%Z.
Proof.
  intros Hab. unfold randint.
  pose proof (randbelow_lt g (Z.to_nat (b - a + 1)) ltac:(lia)) as Hlt.
  destruct (randbelow g (Z.to_nat (b - a + 1))) as [r g']. simpl in *. lia.
Qed.

(** X11: in the fixed mode every whole number typed in starts the fetch
    thread with that number; zero and negative numbers are let through
    like any other, and no error is shown. *)
Theorem fixed_mode_starts_thread self g (count : Z) :
  mode self = "fixed" →
  py_int (fixed_entry self) = Some count →
  validate_and_start self g = [StartThread count]
  ∧ (∀ title message,
       ShowError title message ∉ (start_generation_thread self g).2).
Proof.
  intros Hmode Hcount.
  assert (validate_and_start self g = [StartThread count]) as Hbody.
  { unfold validate_and_start. by rewrite Hmode, Hcount. }
  split; [done|]. intros title message.
  unfold start_generation_thread. cbn [snd]. rewrite Hbody. cbn [app].
  intros Hin. scan_effects Hin.
Qed.

(** X12: in the random range mode with [min <= max] one fetch thread is
    started, with a count between the two bounds. *)
Theorem random_mode_count_in_range self g (min_val max_val : Z) :
  mode self ≠ "fixed" →
  py_int (min_entry self) = Some min_val →
  py_int (max_entry self) = Some max_val →
  (min_val ≤ max_val)%Z →
  ∃ count, validate_and_start self g = [StartThread count]
           ∧ (min_val ≤ count ≤ max_val)%Z.
Proof.
  intros Hmode Hmin Hmax Hle. unfold validate_and_start.
  apply String.eqb_neq in Hmode. rewrite Hmode, Hmin, Hmax.
  destruct (Z.gtb_spec min_val max_val); [lia|].
  pose proof (randint_range g min_val max_val Hle) as Hrange.
  destruct (randint g min_val max_val) as [count g']. by exists count.
Qed.

(** X13: an entry of the chosen mode that [int] refuses gives the "valid
    whole numbers" error, gives the generate button back and starts no
    thread; in the range mode this holds as soon as one bound is refused,
    whatever the other is. *)
Theorem invalid_number_rejected self g :
  (mode self = "fixed" ∧ py_int (fixed_entry self) = None)
  ∨ (mode self ≠ "fixed"
     ∧ (py_int (min_entry self) = None ∨ py_int (max_entry self) = None)) →
  validate_and_start self g
  = [ShowError "Input Error"
       "Please enter valid whole numbers for the tag amounts.";
     Config generate_button "normal";
     UpdateStatus "Ready."]
  ∧ ∀ count, StartThread count ∉ (start_generation_thread self g).2.
Proof.
  intros Hbad.
  assert (validate_and_start self g
          = [ShowError "Input Error"
               "Please enter valid whole numbers for the tag amounts.";
             Config generate_button "normal";
             UpdateStatus "Ready."]) as Hbody.
  { unfold validate_and_start.
    destruct Hbad as [[Hmode Hfixed]|[Hmode Hbound]].
    - by rewrite Hmode, Hfixed.
    - apply String.eqb_neq in Hmode. rewrite Hmode.
      destruct Hbound as [Hmin|Hmax]; [by rewrite Hmin|].
      rewrite Hmax. by destruct (py_int (min_entry self)). }
  split; [done|]. intros count.
  unfold start_generation_thread. cbn [snd]. rewrite Hbody. cbn [app].
  intros Hin. scan_effects Hin.
Qed.

(** X14: whatever the input, valid or not, [start_generation_thread]
    forgets the sources and the pool of the last fetch and disables both
    save buttons; saving the sources right after only gives the "no post
    sources" warning. *)
Theorem start_generation_forgets self g :
  post_source_urls (start_generation_thread self g).1 = []
  ∧ full_tag_pool (start_generation_thread self g).1 = []
  ∧ Config save_tags_button "disabled" ∈ (start_generation_thread self g).2
  ∧ Config save_sources_button "disabled" ∈ (start_generation_thread self g).2
  ∧ ∀ filepath io_error,
      save_post_sources (start_generation_thread self g).1 filepath io_error
      = [ShowWarning "Warning" "There are no post sources to save."].
Proof.
  unfold start_generation_thread. cbn [fst snd].
  split_and!; [done|done|..|done].
  - apply list_elem_of_further, list_elem_of_here.
  - do 2 apply list_elem_of_further. apply list_elem_of_here.
Qed.

(** X15: a negative count typed in the fixed mode is handed to the
    thread; when no request fails there, [fetch_tags] raises, so the
    thread ends without storing anything and without scheduling
    [update_ui], and nothing gives the generate button back. *)
Theorem negative_count_never_reports self g net g' (count : Z) st :
  mode self = "fixed" →
  py_int (fixed_entry self) = Some count →
  (count < 0)%Z →
  run_loop net count = Some (Finished st) →
  StartThread count ∈ (start_generation_thread self g).2
  ∧ (Config generate_button "normal" ∉ (start_generation_thread self g).2)
  ∧ run_fetch_logic (start_generation_thread self g).1 net g' count
    = Some ((start_generation_thread self g).1,
            [UpdateStatus "Fetching tags from random posts..."]).
Proof.
  intros Hmode Hcount Hneg Hrun.
  assert ((start_generation_thread self g).2
          = [Config generate_button "disabled";
             Config save_tags_button "disabled";
             Config save_sources_button "disabled";
             DeleteAll results_text; DeleteAll tag_pool_text;
             SetTagPoolLabel "Full Tag Pool";
             UpdateStatus "Validating input..."; StartThread count]) as ->.
  { unfold start_generation_thread, validate_and_start. cbn [snd].
    by rewrite Hmode, Hcount. }
  split_and!.
  - do 7 apply list_elem_of_further. apply list_elem_of_here.
  - intros Hin. scan_effects Hin.
  - unfold run_fetch_logic.
    rewrite (fetch_tags_finished net g' count st Hrun).
    by rewrite finish_negative.
Qed.

Lemma returned_urls_tokens net g (count : Z) r :
  fetch_tags net g count = Some (Returned r) →
  Forall (λ u, whitespace_free u = true ∧ u ≠ "") (list_of_post_urls r)
  ∧ NoDup (list_of_post_urls r).
Proof.
  unfold fetch_tags.
  destruct (run_loop net count) as [[st|detail n]|] eqn:Hrun; [..|done].
  - intros [= Hfinish]. apply finish_returned in Hfinish as [_ ->].
    split; [|apply NoDup_elements].
    destruct (run_loop_records net count st Hrun) as (_ & _ & Hseen).
    apply Forall_forall. intros u Hu.
    apply elem_of_elements, Hseen in Hu as (p & n & _ & _ & ->).
    apply post_url_token.
  - intros [= <-]. simpl. split; constructor.
Qed.

(** X16: after a fetch that returned, the export of the stored sources
    writes a text that [split] reads back as the sorted source list, one
    URL per post with an [id], none twice. *)
Theorem exported_sources_read_back self net g (count : Z) r filepath :
  fetch_tags net g count = Some (Returned r) →
  list_of_post_urls r ≠ [] →
  filepath ≠ "" →
  ∃ self' content,
    run_fetch_logic self net g count
    = Some (self', [UpdateStatus "Fetching tags from random posts...";
                    UpdateUi (list_of_tags r) (status_message r)])
    ∧ post_source_urls self' = list_of_post_urls r
    ∧ save_post_sources self' filepath None
      = [WriteFile filepath content;
         UpdateStatus ("Post sources saved to " +:+ filepath)]
    ∧ py_split content = py_sorted (list_of_post_urls r)
    ∧ NoDup (py_split content).
Proof.
  intros Hfetch Hurls Hpath.
  destruct (returned_urls_tokens net g count r Hfetch) as [Htokens Hnodup].
  destruct r as [tags urls pool message]. cbn [list_of_post_urls] in *.
  assert (py_split (py_join newline (py_sorted urls)) = py_sorted urls)
    as Hback.
  { apply py_split_join; [done|by repeat constructor|].
    by rewrite py_sorted_perm. }
  exists (with_results self urls pool), (py_join newline (py_sorted urls)).
  split_and!.
  - unfold run_fetch_logic. by rewrite Hfetch.
  - done.
  - unfold save_post_sources. cbn [with_results post_source_urls].
    apply String.eqb_neq in Hpath. rewrite Hpath. by destruct urls.
  - done.
  - rewrite Hback, py_sorted_perm. done.
Qed.

End more_app.

(** * The widgets after a fetch *)

Section widgets.

Import TagGeneratorApp TagGeneratorWidgets.

Implicit Types (self : instance) (v : view) (tags : list string).

(** X17: whatever the widgets held before, after [update_ui] the status
    line is the message, the results box holds the tags with blanks for
    underscores joined by a comma and a blank, the pool box holds the
    pool formatted in the same way, sorted, one entry per line, the label
    gives the size of a pool that is not empty, both boxes are read-only
    again and the generate button is enabled. *)
Theorem update_ui_shows self v tags (message : string) :
  status_var (update_ui self v tags message) = message
  ∧ text_of (update_ui self v tags message) results_text
    = py_join ", " (spaced <$> tags)
  ∧ text_of (update_ui self v tags message) tag_pool_text
    = py_join newline (py_sorted (spaced <$> full_tag_pool self))
  ∧ tag_pool_label_var (update_ui self v tags message)
    = match full_tag_pool self with
      | [] => "Full Tag Pool"
      | pool => "Full Tag Pool (" +:+ pretty (length pool) +:+ " tags)"
      end
  ∧ text_state (update_ui self v tags message) results_text = "disabled"
  ∧ text_state (update_ui self v tags message) tag_pool_text = "disabled"
  ∧ button_state (update_ui self v tags message) generate_button = "normal".
Proof.
  unfold update_ui, show_tags, show_pool.
  destruct tags, (full_tag_pool self), (post_source_urls self);
    split_and!; reflexivity.
Qed.

(** X18: [update_ui] enables the button to save tags when it got tags and
    the button to save sources when sources are stored; otherwise it
    leaves the button as it was, so it never disables one. *)
Theorem update_ui_save_buttons self v tags (message : string) :
  button_state (update_ui self v tags message) save_tags_button
  = match tags with
    | [] => button_state v save_tags_button
    | _ => "normal"
    end
  ∧ button_state (update_ui self v tags message) save_sources_button
    = match post_source_urls self with
      | [] => button_state v save_sources_button
      | _ => "normal"
      end.
Proof.
  unfold update_ui, show_tags, show_pool.
  destruct tags, (full_tag_pool self), (post_source_urls self);
    split; reflexivity.
Qed.

Lemma shown_texts self v tags (message : string) :
  text_of (update_ui self v tags message) results_text
  = py_join ", " (spaced <$> tags)
  ∧ text_of (update_ui self v tags message) tag_pool_text
    = py_join newline (py_sorted (spaced <$> full_tag_pool self)).
Proof.
  unfold update_ui, show_tags, show_pool.
  destruct tags, (full_tag_pool self), (post_source_urls self);
    split; reflexivity.
Qed.

Lemma replace_char_chars (old new : ascii) (s : string) :
  new ≠ old →
  Forall (λ c, c ≠ old) (String.list_ascii_of_string (replace_char old new s)).
Proof.
  intros Hne. induction s as [|c s IH]; [constructor|].
  cbn. constructor; [|done].
  destruct (Ascii.eqb_spec c old); congruence.
Qed.

Lemma chars_app (s t : string) :
  String.list_ascii_of_string (s +:+ t)
  = String.list_ascii_of_string s ++ String.list_ascii_of_string t.
Proof.
  induction s as [|c s IH]; [done|].
  rewrite string_app_cons. cbn. by rewrite IH.
Qed.

Lemma concat_chars (P : ascii → Prop) (sep : string) (l : list string) :
  Forall P (String.list_ascii_of_string sep) →
  Forall (λ s, Forall P (String.list_ascii_of_string s)) l →
  Forall P (String.list_ascii_of_string (String.concat sep l)).
Proof.
  intros Hsep Hl. induction Hl as [|s l Hs Hl IH]; [constructor|].
  destruct l as [|s' l]; [done|].
  cbn [String.concat]. rewrite !chars_app, !Forall_app. done.
Qed.

Lemma spaced_all_chars (l : list string) :
  Forall (λ s, Forall (λ c, c ≠ "_"%char) (String.list_ascii_of_string s))
         (spaced <$> l).
Proof.
  apply Forall_fmap, Forall_forall. intros s _.
  by apply replace_char_chars.
Qed.

(** X19: no underscore is left in what [update_ui] puts into the results
    box and into the pool box. *)
Theorem shown_text_no_underscore self v tags (message : string) (box : text_box) :
  Forall (λ c, c ≠ "_"%char)
    (String.list_ascii_of_string (text_of (update_ui self v tags message) box)).
Proof.
  destruct (shown_texts self v tags message) as [Hresults Hpool].
  destruct box; [rewrite Hresults|rewrite Hpool]; apply concat_chars.
  - by repeat constructor.
  - apply spaced_all_chars.
  - by repeat constructor.
  - rewrite py_sorted_perm. apply spaced_all_chars.
Qed.

(** X20: putting the underscores back into a displayed tag gives the tag
    again when the tag holds no whitespace, as every token of [split]
    does; so two different tokens are never displayed alike. *)
Theorem spaced_round_trip (s t : string) :
  whitespace_free s = true →
  replace_char " " "_" (spaced s) = s
  ∧ (whitespace_free t = true → spaced s = spaced t → s = t).
Proof.
  assert (∀ u, whitespace_free u = true → replace_char " " "_" (spaced u) = u)
    as Hback.
  { induction u as [|c u IH]; [done|].
    intros [Hc Hu]%whitespace_free_cons. unfold spaced in *. cbn.
    rewrite (IH Hu). f_equal.
    destruct (Ascii.eqb_spec c "_") as [->|_]; [done|].
    destruct (Ascii.eqb_spec c " ") as [->|_]; done. }
  intros Hs. split; [by apply Hback|].
  intros Ht Hsame. rewrite <- (Hback s Hs), <- (Hback t Ht). by rewrite Hsame.
Qed.

(** X21: after [update_ui], [save_tags_file] with a path chosen and no
    I/O error writes the text of the results box without the whitespace
    around it, and warns instead when nothing is left of it; a text with
    no whitespace around it is written as it is shown. *)
Theorem saved_tags_are_shown self v tags (message filepath : string) :
  filepath ≠ "" →
  save_tags_file (update_ui self v tags message) filepath None
  = (if String.eqb (py_strip (py_join ", " (spaced <$> tags))) ""
     then [ShowWarning "Warning" "There are no tags to save."]
     else [WriteFile filepath (py_strip (py_join ", " (spaced <$> tags)));
           UpdateStatus ("Tags saved to " +:+ filepath)])
  ∧ (py_join ", " (spaced <$> tags) ≠ "" →
     py_strip (py_join ", " (spaced <$> tags))
     = py_join ", " (spaced <$> tags) →
     save_tags_file (update_ui self v tags message) filepath None
     = [WriteFile filepath (py_join ", " (spaced <$> tags));
        UpdateStatus ("Tags saved to " +:+ filepath)]).
Proof.
  intros Hpath. apply String.eqb_neq in Hpath.
  destruct (shown_texts self v tags message) as [Hresults _].
  assert (save_tags_file (update_ui self v tags message) filepath None
    = (if String.eqb (py_strip (py_join ", " (spaced <$> tags))) ""
       then [ShowWarning "Warning" "There are no tags to save."]
       else [WriteFile filepath (py_strip (py_join ", " (spaced <$> tags)));
             UpdateStatus ("Tags saved to " +:+ filepath)])) as Hsave.
  { unfold save_tags_file, get_all.
    rewrite Hresults, py_strip_newline, Hpath. done. }
  split; [done|]. intros Hsome Hkept. rewrite Hsave, Hkept.
  apply String.eqb_neq in Hsome. by rewrite Hsome.
Qed.

(** X22: after a transport error the thread stores two empty lists and
    hands the error status to [update_ui], which shows it, empties both
    boxes, resets the label and enables no save button; both save actions
    then only warn. *)
Theorem transport_error_in_ui self net g (count : Z) detail n v
    (filepath : string) (io_error : option string) :
  run_loop net count = Some (Failed detail n) →
  run_fetch_logic self net g count
  = Some (with_results self [] [],
          [UpdateStatus "Fetching tags from random posts...";
           UpdateUi [] (error_status detail)])
  ∧ status_var (update_ui (with_results self [] []) v [] (error_status detail))
    = error_status detail
  ∧ text_of (update_ui (with_results self [] []) v [] (error_status detail))
            results_text = ""
  ∧ text_of (update_ui (with_results self [] []) v [] (error_status detail))
            tag_pool_text = ""
  ∧ tag_pool_label_var
      (update_ui (with_results self [] []) v [] (error_status detail))
    = "Full Tag Pool"
  ∧ button_state
      (update_ui (with_results self [] []) v [] (error_status detail))
      save_tags_button = button_state v save_tags_button
  ∧ button_state
      (update_ui (with_results self [] []) v [] (error_status detail))
      save_sources_button = button_state v save_sources_button
  ∧ save_tags_file
      (update_ui (with_results self [] []) v [] (error_status detail))
      filepath io_error
    = [ShowWarning "Warning" "There are no tags to save."]
  ∧ save_post_sources (with_results self [] []) filepath io_error
    = [ShowWarning "Warning" "There are no post sources to save."].
Proof.
  intros Hrun. split_and!; try reflexivity.
  unfold run_fetch_logic, fetch_tags. by rewrite Hrun.
Qed.

(** X23: for an event that is no press of button 4 or 5 the wheel scrolls
    by minus the floor of [delta / 120] units: not at all for a [delta]
    from 0 to 119, down by at least one unit for every negative [delta],
    up for a [delta] of 120 or more.  Button 5 scrolls one unit down;
    button 4 one unit up, unless [delta] is -120. *)
Theorem mousewheel_units (ev : event) :
  (num ev ≠ Some 4%Z → num ev ≠ Some 5%Z →
     _on_mousewheel ev = (- (delta ev `div` 120))%Z
     ∧ ((0 ≤ delta ev < 120)%Z → _on_mousewheel ev = 0%Z)
     ∧ ((delta ev < 0)%Z → (1 ≤ _on_mousewheel ev)%Z)
     ∧ ((120 ≤ delta ev)%Z → (_on_mousewheel ev ≤ -1)%Z))
  ∧ (num ev = Some 5%Z → _on_mousewheel ev = 1%Z)
  ∧ (num ev = Some 4%Z → delta ev ≠ (-120)%Z → _on_mousewheel ev = (-1)%Z)
  ∧ (num ev = Some 4%Z → delta ev = (-120)%Z → _on_mousewheel ev = 1%Z).
Proof.
  pose proof (Z.div_mod (delta ev) 120 ltac:(lia)) as Hdiv.
  pose proof (Z.mod_pos_bound (delta ev) 120 ltac:(lia)) as Hmod.
  unfold _on_mousewheel. split_and!.
  - intros H4 H5.
    rewrite (bool_decide_eq_false_2 _ H5), (bool_decide_eq_false_2 _ H4).
    cbn [orb].
    destruct (Z.eqb_spec (delta ev) (-120)) as [Heq|_].
    { rewrite Heq in *. split_and!; intros; lia. }
    destruct (Z.eqb_spec (delta ev) 120) as [Heq|_].
    { rewrite Heq in *. split_and!; intros; lia. }
    split_and!; intros; lia.
  - intros H5. by rewrite (bool_decide_eq_true_2 _ H5).
  - intros H4 Hdelta. rewrite H4.
    destruct (Z.eqb_spec (delta ev) (-120)); [done|]. done.
  - intros H4 Hdelta. rewrite H4, Hdelta. done.
Qed.

End widgets.

(** * The further properties at the sample inputs *)

Lemma full_pool_from_posts_witness :
  "artist: foo" ∈ full_tag_pool steady_result ↔
  (∃ p, answered steady_net (requests_made steady_collected) p
        ∧ "artist: foo" ∈ general_tokens p)
  ∨ (∃ p t, answered steady_net (requests_made steady_collected) p
            ∧ t ∈ artist_tokens p ∧ "artist: foo" = artist_entry t).
Proof.
  apply (full_pool_from_posts steady_net sample_rng 2 steady_collected
           steady_result "artist: foo"); vm_compute; reflexivity.
Defined.



Lemma error_only_on_failure_witness :
  ∃ k, 3 = S k ∧ k < 10 ∧ flaky_net k = RequestException "timed out"
       ∧ ∀ i, i < k → ∃ posts, flaky_net i = Posts posts.
Proof.
  apply (error_only_on_failure flaky_net 2 "timed out" 3).
  vm_compute. reflexivity.
Defined.

Lemma add_posts_same_posts_witness :
  foldl add_post start [sample_post; sample_post]
  = foldl add_post start [sample_post].
Proof.
  apply (add_posts_same_posts start [sample_post; sample_post] [sample_post]).
  intros p. rewrite !elem_of_cons. tauto.
Defined.

Lemma fetch_tags_empty_answers_witness :
  run_loop empty_net 3 = Some (Finished (Collected ∅ ∅ ∅ 10))
  ∧ fetch_tags empty_net sample_rng 3
    = Some (Returned (FetchResult [] [] []
              "Warning: Found only 0 unique tags. Returning all.")).
Proof.
  apply (fetch_tags_empty_answers empty_net sample_rng 3);
    [intros i _; reflexivity | lia].
Defined.

Lemma field_tags_of_joined_witness :
  field_tags (Some (py_join "  " ["1girl"; "solo"])) = ["1girl"; "solo"].
Proof.
  apply (field_tags_of_joined "  " ["1girl"; "solo"]).
  - discriminate.
  - repeat constructor.
  - repeat constructor; discriminate.
Defined.

Lemma randomness_only_in_sample_witness :
  ∃ r', fetch_tags steady_net other_rng 2 = Some (Returned r')
        ∧ list_of_post_urls r' = list_of_post_urls steady_result
        ∧ status_message r' = status_message steady_result
        ∧ full_tag_pool r' ≡ₚ full_tag_pool steady_result
        ∧ length (list_of_tags r') = length (list_of_tags steady_result).
Proof.
  apply (randomness_only_in_sample steady_net sample_rng other_rng 2
           steady_result).
  vm_compute. reflexivity.
Defined.

Section more_witnesses.

Import TagGeneratorApp TagGeneratorWidgets.

Lemma fixed_mode_starts_thread_witness :
  validate_and_start negative_form sample_rng = [StartThread (-3)]
  ∧ (∀ title message,
       ShowError title message
         ∉ (start_generation_thread negative_form sample_rng).2).
Proof.
  apply (fixed_mode_starts_thread negative_form sample_rng (-3));
    reflexivity.
Defined.

Lemma random_mode_count_in_range_witness :
  ∃ count, validate_and_start range_form sample_rng = [StartThread count]
           ∧ (2 ≤ count ≤ 5)%Z.
Proof.
  apply (random_mode_count_in_range range_form sample_rng 2 5);
    [discriminate | reflexivity | reflexivity | lia].
Defined.

Lemma invalid_number_rejected_witness :
  (validate_and_start garbled_form sample_rng
   = [ShowError "Input Error"
        "Please enter valid whole numbers for the tag amounts.";
      Config generate_button "normal";
      UpdateStatus "Ready."]
   ∧ ∀ count,
       StartThread count ∉ (start_generation_thread garbled_form sample_rng).2)
  ∧ (validate_and_start separator_form sample_rng
     = [ShowError "Input Error"
          "Please enter valid whole numbers for the tag amounts.";
        Config generate_button "normal";
        UpdateStatus "Ready."]
     ∧ ∀ count,
         StartThread count
           ∉ (start_generation_thread separator_form sample_rng).2)
  ∧ (validate_and_start long_form sample_rng
     = [ShowError "Input Error"
          "Please enter valid whole numbers for the tag amounts.";
        Config generate_button "normal";
        UpdateStatus "Ready."]
     ∧ ∀ count,
         StartThread count ∉ (start_generation_thread long_form sample_rng).2).
Proof.
  split; [|split].
  - apply (invalid_number_rejected garbled_form sample_rng).
    right. split; [discriminate|]. left. reflexivity.
  - apply (invalid_number_rejected separator_form sample_rng).
    left. split; reflexivity.
  - apply (invalid_number_rejected long_form sample_rng).
    left. split; [reflexivity | vm_compute; reflexivity].
Defined.

Lemma negative_count_never_reports_witness :
  StartThread (-3) ∈ (start_generation_thread negative_form sample_rng).2
  ∧ (Config generate_button "normal"
       ∉ (start_generation_thread negative_form sample_rng).2)
  ∧ run_fetch_logic (start_generation_thread negative_form sample_rng).1
      steady_net other_rng (-3)
    = Some ((start_generation_thread negative_form sample_rng).1,
            [UpdateStatus "Fetching tags from random posts..."]).
Proof.
  apply (negative_count_never_reports negative_form sample_rng steady_net
           other_rng (-3) steady_collected);
    [reflexivity | reflexivity | lia | vm_compute; reflexivity].
Defined.

Lemma exported_sources_read_back_witness :
  ∃ self' content,
    run_fetch_logic negative_form steady_net sample_rng 2
    = Some (self', [UpdateStatus "Fetching tags from random posts...";
                    UpdateUi (list_of_tags steady_result)
                             (status_message steady_result)])
    ∧ post_source_urls self' = list_of_post_urls steady_result
    ∧ save_post_sources self' "sources.txt" None
      = [WriteFile "sources.txt" content;
         UpdateStatus ("Post sources saved to " +:+ "sources.txt")]
    ∧ py_split content = py_sorted (list_of_post_urls steady_result)
    ∧ NoDup (py_split content).
Proof.
  apply (exported_sources_read_back negative_form steady_net sample_rng 2
           steady_result "sources.txt");
    [vm_compute; reflexivity | discriminate | discriminate].
Defined.

Lemma spaced_round_trip_witness :
  replace_char " " "_" (spaced "long_hair") = "long_hair"
  ∧ (whitespace_free "longhair" = true →
     spaced "long_hair" = spaced "longhair" → "long_hair" = "longhair").
Proof.
  apply (spaced_round_trip "long_hair" "longhair"). reflexivity.
Defined.

Lemma saved_tags_are_shown_witness :
  save_tags_file
    (update_ui fetched_form waiting_view ["long_hair"; "solo"] "Success!")
    "tags.txt" None
  = (if String.eqb (py_strip (py_join ", " (spaced <$> ["long_hair"; "solo"]))) ""
     then [ShowWarning "Warning" "There are no tags to save."]
     else [WriteFile "tags.txt"
             (py_strip (py_join ", " (spaced <$> ["long_hair"; "solo"])));
           UpdateStatus ("Tags saved to " +:+ "tags.txt")])
  ∧ (py_join ", " (spaced <$> ["long_hair"; "solo"]) ≠ "" →
     py_strip (py_join ", " (spaced <$> ["long_hair"; "solo"]))
     = py_join ", " (spaced <$> ["long_hair"; "solo"]) →
     save_tags_file
       (update_ui fetched_form waiting_view ["long_hair"; "solo"] "Success!")
       "tags.txt" None
     = [WriteFile "tags.txt" (py_join ", " (spaced <$> ["long_hair"; "solo"]));
        UpdateStatus ("Tags saved to " +:+ "tags.txt")]).
Proof.
  apply (saved_tags_are_shown fetched_form waiting_view ["long_hair"; "solo"]
           "Success!" "tags.txt").
  discriminate.
Defined.

Lemma transport_error_in_ui_witness :
  run_fetch_logic fetched_form flaky_net sample_rng 2
  = Some (with_results fetched_form [] [],
          [UpdateStatus "Fetching tags from random posts...";
           UpdateUi [] (error_status "timed out")])
  ∧ status_var (update_ui (with_results fetched_form [] []) waiting_view []
                          (error_status "timed out"))
    = error_status "timed out".
Proof.
  pose proof (transport_error_in_ui fetched_form flaky_net sample_rng 2
                "timed out" 3 waiting_view "tags.txt" None
                ltac:(vm_compute; reflexivity)) as (Hrun & Hstatus & _).
  split; [exact Hrun | exact Hstatus].
Defined.

End more_witnesses.
